(** * Mavis ID SDK: the wallet provider and the authorization entry points

    A shallow embedding of [MavisIdWallet] (packages/mavis-id-sdk/src/wallet)
    and of [authorize] / [parseRedirectUrl] (packages/mavis-id-sdk/src/auth.ts),
    with the properties of the cross-window authorization flow proved on it.

    Promises are modelled by their outcome: an asynchronous method is a
    function from the state in which it is called to the way its promise
    settles (or fails to settle) and the state it leaves behind. *)

From Stdlib Require Import ZArith Ascii String List Bool.
From stdpp Require Import base option list strings gmap pretty.

Open Scope string_scope.
Open Scope list_scope.

(** ** Values shared by the modules *)

(** viem's [Address] is a template-literal string type; at run time it is a
    string. *)
Abbreviation Address := string (only parsing).

(** [Scope] (common/scope) is a union of string literals. *)
Abbreviation Scope := string (only parsing).

(** JavaScript truthiness of a value of type [string | undefined]: the
    tests [if (address)], [!address] and [!!this.address]. *)
Definition truthy (v : option string) : bool :=
  match v with
  | Some s => negb (String.eqb s EmptyString)
  | None => false
  end.

(** The value itself when it is truthy. *)
Definition as_truthy (v : option string) : option string :=
  match v with
  | Some s => if String.eqb s EmptyString then None else Some s
  | None => None
  end.

(** [a || b] on strings that may be null or undefined. *)
Definition js_or (a : option string) (b : string) : string :=
  match a with
  | Some s => if String.eqb s EmptyString then b else s
  | None => b
  end.

(** The errors the provider constructs, by class. Each viem class wraps the
    message of the [Error] it is built from. [ReferenceError] is what reading
    [window] gives where no window exists; [ForeignError] stands for a
    rejection raised by a collaborator (popup closed, remote failure). *)
Inductive Error :=
| ChainDisconnectedError (cause : string)
| ProviderDisconnectedError (cause : string)
| UnauthorizedProviderError (cause : string)
| ReferenceError (message : string)
| ForeignError (name message : string).

(** The [name] property of a thrown error. *)
Definition error_name (e : Error) : string :=
  match e with
  | ChainDisconnectedError _ => "ChainDisconnectedError"
  | ProviderDisconnectedError _ => "ProviderDisconnectedError"
  | UnauthorizedProviderError _ => "UnauthorizedProviderError"
  | ReferenceError _ => "ReferenceError"
  | ForeignError n _ => n
  end.

(** A chain description of viem, and the client built on one. *)
Record Chain := { chain_id : Z; chain_name : string }.
Record Client := { client_chain : Chain }.

(** [CommunicateHelper] is constructed from the ID origin. *)
Record CommunicateHelper := { helper_origin : string }.

(** The payload a handshake resolves with (common/id-response). Both fields
    may be missing: [authorize] reads them off [authData ?? {}]. *)
Record IdResponse := {
  id_token : option string;
  resp_address : option string }.

(** The provider instance: the fields of the class. Only [address] is
    mutable. *)
Record MavisIdWallet := {
  clientId : string;
  idOrigin : string;
  redirectUrl : string;
  scopes : list Scope;
  chainId : Z;
  address : option Address;
  viemClient : Client;
  communicateHelper : CommunicateHelper }.

Definition set_address (a : option Address) (w : MavisIdWallet) : MavisIdWallet :=
  {| clientId := clientId w; idOrigin := idOrigin w; redirectUrl := redirectUrl w;
     scopes := scopes w; chainId := chainId w; address := a;
     viemClient := viemClient w; communicateHelper := communicateHelper w |}.

(** ** Events and effects *)

Module Eip1193EventName.
Inductive t := accountsChanged | connect | disconnect.
End Eip1193EventName.

(** The second argument of [this.emit]. *)
Inductive EventPayload :=
| Accounts (addresses : list Address)
| ConnectInfo (chainId : Z)
| Failure (err : Error).

(** What the provider does to the outside, in order: windows it opens and
    events it emits. *)
Inductive Effect :=
| OpenPopup (url : string) (query : list (string * string))
| Emit (name : Eip1193EventName.t) (payload : EventPayload).

(** How the promise of one [sendRequest] settles. *)
Inductive Settlement :=
| Resolves (authData : IdResponse)
| Rejects (err : Error)
| NeverSettles.

(** One round of the handshake as the environment plays it: the correlation
    token generated for it and the way it ends. *)
Record Handshake := { hs_state : string; hs_settlement : Settlement }.

(** The state a method runs in: the instance, the origin's persistent storage,
    the effects so far (oldest first), and the handshakes to come, of which
    [round] have been used. *)
Record State := mkState {
  this : MavisIdWallet;
  localStorage : gmap string string;
  trace : list Effect;
  idProvider : nat -> Handshake;
  round : nat }.

Definition with_this (w : MavisIdWallet) (st : State) : State :=
  mkState w (localStorage st) (trace st) (idProvider st) (round st).
Definition with_localStorage (s : gmap string string) (st : State) : State :=
  mkState (this st) s (trace st) (idProvider st) (round st).
Definition with_trace (t : list Effect) (st : State) : State :=
  mkState (this st) (localStorage st) t (idProvider st) (round st).
Definition with_round (n : nat) (st : State) : State :=
  mkState (this st) (localStorage st) (trace st) (idProvider st) n.

(** ** Asynchronous computations *)

Inductive Outcome (A : Type) :=
| Returned (a : A)
| Thrown (e : Error)
| Pending.
Arguments Returned {A} a.
Arguments Thrown {A} e.
Arguments Pending {A}.

Definition M (A : Type) : Type := State -> Outcome A * State.

Definition ret {A} (a : A) : M A := fun st => (Returned a, st).
Definition throw {A} (e : Error) : M A := fun st => (Thrown e, st).
Definition bind {A B} (c : M A) (k : A -> M B) : M B := fun st =>
  match c st with
  | (Returned a, st') => k a st'
  | (Thrown e, st') => (Thrown e, st')
  | (Pending, st') => (Pending, st')
  end.

Notation "'await' x <- c ; k" := (bind c (fun x => k))
  (at level 10, x name, c at level 100, k at level 200).
Notation "c ;; k" := (bind c (fun _ => k))
  (at level 100, k at level 200, right associativity).

Definition emit (name : Eip1193EventName.t) (payload : EventPayload) : M unit :=
  fun st => (Returned tt, with_trace (trace st ++ [Emit name payload]) st).

Definition assign_address (a : option Address) : M unit :=
  fun st => (Returned tt, with_this (set_address a (this st)) st).

(** utils/storage, over the origin's [localStorage]. *)
Definition getStorage (key : string) (st : State) : option string :=
  localStorage st !! key.
Definition setStorage (key value : string) : M unit :=
  fun st => (Returned tt, with_localStorage (<[key := value]> (localStorage st)) st).
Definition removeStorage (key : string) : M unit :=
  fun st => (Returned tt, with_localStorage (delete key (localStorage st)) st).

(** Arguments of a provider request, and its results. Parameters are opaque
    to the dispatcher; each is carried as its JSON text. *)
Record RequestArgs := { method : string; params : list string }.

Inductive Value :=
| VString (s : string)
| VAccounts (l : list Address)
| VRemote (json : string).

(** Arguments of the three confirmation round-trips (core/personal-sign,
    core/sign-data, core/send-tx). [personalSign] receives no chain id. *)
Record ActionArgs := {
  act_params : list string;
  act_chainId : option Z;
  act_expectAddress : Address;
  act_clientId : string;
  act_idOrigin : string;
  act_communicateHelper : CommunicateHelper }.

Record Window := { location_origin : string }.

(** ** Collaborators

    What the two modules import from the rest of the package and from viem,
    and the browser's global [window]. *)
Class Platform := {
  ID_ORIGIN_PROD : string;
  STORAGE_ADDRESS_KEY : string;
  VIEM_CHAIN_MAPPING : gmap Z Chain;
  validateIdAddress : option string -> option Address;
  getScopesParams : option (list Scope) -> string;
  toHex : Z -> string;
  window : option Window;
  personalSign : ActionArgs -> M Value;
  signTypedDataV4 : ActionArgs -> M Value;
  sendTransaction : ActionArgs -> M Value;
  viemClient_request : Client -> RequestArgs -> M Value }.

Section Wallet.
Context `{P : Platform}.

(** *** Construction *)

(** [AuthorizeOpts] of auth.ts, and [MavisIdWalletOpts], which adds the
    chain id to it. *)
Record AuthorizeOpts := {
  opt_clientId : string;
  opt_idOrigin : option string;
  opt_scopes : option (list Scope);
  opt_redirectUrl : option string }.

Record MavisIdWalletOpts := {
  auth_opts : AuthorizeOpts;
  opt_chainId : Z }.

Definition createViemClient (chainId : Z) : Error + Client :=
  match VIEM_CHAIN_MAPPING !! chainId with
  | None =>
      inl (ChainDisconnectedError ("Chain " +:+ pretty chainId +:+ " is not supported."))
  | Some chain => inr {| client_chain := chain |}
  end.

Definition addDefaultScopes (scopes : list Scope) : list Scope :=
  let newScopes := scopes in
  let newScopes :=
    if bool_decide ("openid" ∈ newScopes) then newScopes else newScopes ++ ["openid"] in
  let newScopes :=
    if bool_decide ("wallet" ∈ newScopes) then newScopes else newScopes ++ ["wallet"] in
  newScopes.

(** The constructor, reached through [MavisIdWallet.create]. The client is
    built last; when that throws, no instance exists. *)
Definition create (options : MavisIdWalletOpts) : Error + MavisIdWallet :=
  let clientId := opt_clientId (auth_opts options) in
  let chainId := opt_chainId options in
  let scopes := default [] (opt_scopes (auth_opts options)) in
  let idOrigin := default ID_ORIGIN_PROD (opt_idOrigin (auth_opts options)) in
  let redirectUrl :=
    default (match window with Some win => location_origin win | None => EmptyString end)
            (opt_redirectUrl (auth_opts options)) in
  let scopes' := addDefaultScopes scopes in
  let helper := {| helper_origin := idOrigin |} in
  match createViemClient chainId with
  | inl err => inl err
  | inr client =>
      inr {| clientId := clientId; idOrigin := idOrigin; redirectUrl := redirectUrl;
             scopes := scopes'; chainId := chainId; address := None;
             viemClient := client; communicateHelper := helper |}
  end.

(** *** The session cache *)

Definition getIdAddress (st : State) : option Address :=
  if truthy (address (this st)) then address (this st)
  else
    let storedAddress := js_or (getStorage STORAGE_ADDRESS_KEY st) EmptyString in
    validateIdAddress (Some storedAddress).

(** *** The handshake *)

Definition openPopup (url : string) (query : list (string * string)) : Effect :=
  OpenPopup url query.

(** Modelled from the spec: [CommunicateHelper.sendRequest] (core/communicate)
    is not among the sources. It generates the correlation token of the round,
    calls the launcher with it, and returns a promise that the matching
    message resolves, and that a failure reply or a closed popup rejects. The
    round is the environment's: the next entry of [idProvider]. *)
Definition sendRequest (helper : CommunicateHelper) (launch : string -> Effect)
  : M IdResponse := fun st =>
  let h := idProvider st (round st) in
  let st' := with_round (S (round st)) (with_trace (trace st ++ [launch (hs_state h)]) st) in
  match hs_settlement h with
  | Resolves authData => (Returned authData, st')
  | Rejects err => (Thrown err, st')
  | NeverSettles => (Pending, st')
  end.

(** The target and the query the launcher of [connect] and [authorize] passes
    on: the template [`${idOrigin}/client/${clientId}/authorize`] and the
    object literal next to it. *)
Definition authorize_url (idOrigin clientId : string) : string :=
  idOrigin +:+ "/client/" +:+ clientId +:+ "/authorize".

Definition authorize_query (state redirect origin scope : string)
  : list (string * string) :=
  [("state", state); ("redirect", redirect); ("origin", origin); ("scope", scope)].

Record ConnectResult := {
  cr_accessToken : option string;
  cr_address : Address }.

(** [connect]. The launcher reads [window.location.origin]; where there is no
    window that read throws before any popup is opened. *)
Definition connect : M ConnectResult := fun st =>
  let w := this st in
  match window with
  | None => throw (ReferenceError "window is not defined") st
  | Some win =>
      (await authData <-
         sendRequest (communicateHelper w) (fun state =>
           openPopup (authorize_url (idOrigin w) (clientId w))
             (authorize_query state (redirectUrl w) (location_origin win)
                (getScopesParams (Some (scopes w)))));
       let accessToken := id_token authData in
       let rawAddress := resp_address authData in
       match as_truthy (validateIdAddress rawAddress) with
       | None => throw (UnauthorizedProviderError "ID do NOT return valid address")
       | Some address =>
           setStorage STORAGE_ADDRESS_KEY address ;;
           assign_address (Some address) ;;
           emit Eip1193EventName.accountsChanged (Accounts [address]) ;;
           emit Eip1193EventName.connect (ConnectInfo (chainId w)) ;;
           ret {| cr_accessToken := accessToken; cr_address := address |}
       end) st
  end.

Definition getIdAddressOrConnect : M Address := fun st =>
  match as_truthy (getIdAddress st) with
  | Some address => ret address st
  | None => (await result <- connect; ret (cr_address result)) st
  end.

Definition disconnect : M unit := fun st =>
  let shouldEmitDisconnectEvent := truthy (address (this st)) in
  (removeStorage STORAGE_ADDRESS_KEY ;;
   assign_address None ;;
   if shouldEmitDisconnectEvent then
     let providerErr :=
       ProviderDisconnectedError "The provider is disconnected from all chains." in
     emit Eip1193EventName.accountsChanged (Accounts []) ;;
     emit Eip1193EventName.disconnect (Failure providerErr)
   else ret tt) st.

(** *** The dispatcher *)

Definition action_args (w : MavisIdWallet) (params : list string)
    (chain : option Z) (expectAddress : Address) : ActionArgs :=
  {| act_params := params; act_chainId := chain; act_expectAddress := expectAddress;
     act_clientId := clientId w; act_idOrigin := idOrigin w;
     act_communicateHelper := communicateHelper w |}.

Definition request (args : RequestArgs) : M Value := fun st =>
  let w := this st in
  let method := method args in
  let params := params args in
  if String.eqb method "eth_chainId" then
    ret (VString (toHex (chainId w))) st
  else if String.eqb method "eth_accounts" then
    let address := getIdAddress st in
    let result := match as_truthy address with Some a => [a] | None => [] end in
    ret (VAccounts result) st
  else if String.eqb method "eth_requestAccounts" then
    (await result <- connect;
     ret (VAccounts [cr_address result])) st
  else if String.eqb method "personal_sign" then
    (await expectAddress <- getIdAddressOrConnect;
     personalSign (action_args w params None expectAddress)) st
  else if String.eqb method "eth_signTypedData_v4" then
    (await expectAddress <- getIdAddressOrConnect;
     signTypedDataV4 (action_args w params (Some (chainId w)) expectAddress)) st
  else if String.eqb method "eth_sendTransaction" then
    (await expectAddress <- getIdAddressOrConnect;
     sendTransaction (action_args w params (Some (chainId w)) expectAddress)) st
  else
    viemClient_request (viemClient w) args st.

(** ** auth.ts *)

Record AuthorizeResult := {
  ar_accessToken : option string;
  ar_address : option Address }.

(** [authorize]. The payload is an object here, on which [authData ?? {}] is
    [authData]. Without a window either the default of [redirectUrl] or the
    launcher fails on reading it. *)
Definition authorize (opts : AuthorizeOpts) : M AuthorizeResult := fun st =>
  match window with
  | None => throw (ReferenceError "window is not defined") st
  | Some win =>
      let clientId := opt_clientId opts in
      let idOrigin := default ID_ORIGIN_PROD (opt_idOrigin opts) in
      let scopes := opt_scopes opts in
      let redirectUrl := default (location_origin win) (opt_redirectUrl opts) in
      let helper := {| helper_origin := idOrigin |} in
      (await authData <-
         sendRequest helper (fun state =>
           openPopup (authorize_url idOrigin clientId)
             (authorize_query state redirectUrl (location_origin win)
                (getScopesParams scopes)));
       let accessToken := id_token authData in
       let rawAddress := resp_address authData in
       ret {| ar_accessToken := accessToken;
              ar_address := validateIdAddress rawAddress |}) st
  end.

(** [url.searchParams.get]: the first value under the name, or null. *)
Fixpoint searchParams_get (query : list (string * string)) (name : string)
  : option string :=
  match query with
  | [] => None
  | (k, v) :: rest => if String.eqb k name then Some v else searchParams_get rest name
  end.

Record RedirectResult := {
  rr_state : option string;
  rr_accessToken : option string;
  rr_address : option Address }.

(** [parseRedirectUrl], on the search parameters of [window.location.href].
    What it throws is a string. *)
Definition parseRedirectUrl (searchParams : list (string * string))
  : string + RedirectResult :=
  let method := searchParams_get searchParams "method" in
  if negb (bool_decide (method = Some "auth")) then
    inl "parseRedirectUrl: invalid method"
  else
    let type := searchParams_get searchParams "type" in
    if negb (bool_decide (type = Some "success")) then
      inl "parseRedirectUrl: authorization failed"
    else
      let state := searchParams_get searchParams "state" in
      let rawToken := searchParams_get searchParams "data" in
      let rawAddress := searchParams_get searchParams "address" in
      inr {| rr_state := state; rr_accessToken := rawToken;
             rr_address := validateIdAddress rawAddress |}.

(** *** Vocabulary of the statements *)

(** The provider is connected when a cached address is available, in memory
    or validated from storage. *)
Definition Connected (st : State) : Prop :=
  exists a, as_truthy (getIdAddress st) = Some a.
Definition Disconnected (st : State) : Prop :=
  as_truthy (getIdAddress st) = None.

(** The popup [connect] opens in state [st]. *)
Definition connect_popup (win : Window) (st : State) : Effect :=
  OpenPopup (authorize_url (idOrigin (this st)) (clientId (this st)))
    (authorize_query (hs_state (idProvider st (round st))) (redirectUrl (this st))
       (location_origin win) (getScopesParams (Some (scopes (this st))))).

(** What is asked of each signing method: with a
    cached address the action is delegated at once with that address as the
    expected signer; without one [connect] runs first, the action is delegated
    with the address [connect] returns, and nothing is delegated when
    [connect] does not return. *)
Definition uses_cached_or_connects (action : ActionArgs -> M Value)
    (chain : option Z) (args : RequestArgs) (st : State) : Prop :=
  (forall a, as_truthy (getIdAddress st) = Some a ->
     request args st = action (action_args (this st) (params args) chain a) st)
  /\ (as_truthy (getIdAddress st) = None ->
      forall st',
        (forall r, connect st = (Returned r, st') ->
           request args st =
             action (action_args (this st) (params args) chain (cr_address r)) st')
        /\ (forall e, connect st = (Thrown e, st') -> request args st = (Thrown e, st'))
        /\ (connect st = (Pending, st') -> request args st = (Pending, st'))).

(** The events of a trace, without the popups. *)
Definition emitted (t : list Effect) : list Effect :=
  List.filter (fun e => match e with Emit _ _ => true | OpenPopup _ _ => false end) t.

End Wallet.

(** ** The redirect variant and sequences of calls *)

Section Flows.
Context `{P : Platform}.

(** [RedirectAuthorizeOpts] of auth.ts: [AuthorizeOpts] with an optional
    state. *)
Record RedirectAuthorizeOpts := {
  ra_opts : AuthorizeOpts;
  ra_state : option string }.

(** Where [replaceUrl] sends the page. *)
Record Navigation := {
  nav_url : string;
  nav_query : list (string * string) }.

Definition replaceUrl (url : string) (query : list (string * string)) : Navigation :=
  {| nav_url := url; nav_query := query |}.

(** [redirectAuthorize]; [randomUUID] is what [crypto.randomUUID()] gives
    when it is called. The function navigates [window.location] away, which
    without a window fails on reading it. *)
Definition redirectAuthorize (opts : RedirectAuthorizeOpts) (randomUUID : string)
  : Error + Navigation :=
  match window with
  | None => inl (ReferenceError "window is not defined")
  | Some win =>
      let clientId := opt_clientId (ra_opts opts) in
      let redirectUrl := default (location_origin win) (opt_redirectUrl (ra_opts opts)) in
      let state := default randomUUID (ra_state opts) in
      let idOrigin := default ID_ORIGIN_PROD (opt_idOrigin (ra_opts opts)) in
      let scopes := opt_scopes (ra_opts opts) in
      inr (replaceUrl (authorize_url idOrigin clientId)
             [("state", state); ("redirect", redirectUrl);
              ("scope", getScopesParams scopes)])
  end.

(** The state in which the handshake of [connect] has been launched and
    nothing else has happened. *)
Definition launched (win : Window) (st : State) : State :=
  mkState (this st) (localStorage st) (trace st ++ [connect_popup win st])
    (idProvider st) (S (round st)).

(** The state in which [connect] has authorized address [a]. *)
Definition authorized (win : Window) (a : Address) (st : State) : State :=
  mkState (set_address (Some a) (this st))
    (<[STORAGE_ADDRESS_KEY := a]> (localStorage st))
    (trace st ++ [connect_popup win st;
                  Emit Eip1193EventName.accountsChanged (Accounts [a]);
                  Emit Eip1193EventName.connect (ConnectInfo (chainId (this st)))])
    (idProvider st) (S (round st)).

(** A call on the public interface of one instance. *)
Inductive Call :=
| CallConnect
| CallDisconnect
| CallRequest (args : RequestArgs).

(** The state a call leaves, whatever its outcome. *)
Definition run_call (c : Call) (st : State) : State :=
  match c with
  | CallConnect => snd (connect st)
  | CallDisconnect => snd (disconnect st)
  | CallRequest args => snd (request args st)
  end.

Definition run_calls (cs : list Call) (st : State) : State :=
  fold_left (fun s c => run_call c s) cs st.

(** The calls the provider answers from the session alone: everything but
    the methods that hand over to a confirmation round-trip or to the chain
    client. *)
Definition session_call (c : Call) : bool :=
  match c with
  | CallConnect | CallDisconnect => true
  | CallRequest args =>
      String.eqb (method args) "eth_chainId"
      || String.eqb (method args) "eth_accounts"
      || String.eqb (method args) "eth_requestAccounts"
  end.


(** The in-memory address, when set, is non-empty, came out of the validator
    and is mirrored in storage. *)
Definition coherent (st : State) : Prop :=
  forall a, address (this st) = Some a ->
    a <> EmptyString
    /\ localStorage st !! STORAGE_ADDRESS_KEY = Some a
    /\ exists raw, validateIdAddress raw = Some a.


End Flows.

(** ** The cross-window messenger *)

Module Messenger.

(** Modelled from the spec: the listener of [CommunicateHelper]
    (core/communicate) is not among the sources. The spec gives the inbound
    payload as [{ method, type, state, data, address }] and the listener's
    rule: discard a message whose source origin is not the configured
    ID-provider origin; discard one whose embedded token is not the token
    of the pending request; otherwise unregister the listener and resolve
    the pending promise with the payload, or reject it when the status is
    failure. *)
Inductive Status := success | failure.

Record Payload := {
  p_method : string;
  p_type : Status;
  p_state : string;
  p_data : string;
  p_address : string }.

Record MessageEvent := { origin : string; data : Payload }.

Inductive Promise :=
| Unsettled
| Resolved (payload : Payload)
| Rejected (payload : Payload).

(** [token] is the correlation token of the pending request; the listener
    is registered exactly while it is [Some]. *)
Record t := mk {
  idOrigin : string;
  token : option string;
  promise : Promise }.

(** Modelled from the spec: the start of [sendRequest], which registers the
    listener for a fresh token before the launcher runs. *)
Definition open_request (m : t) (fresh : string) : t :=
  mk (idOrigin m) (Some fresh) Unsettled.

(** Modelled from the spec: the listener, on one inbound message. *)
Definition onMessage (m : t) (ev : MessageEvent) : t :=
  match token m with
  | None => m
  | Some pending =>
      if negb (String.eqb (origin ev) (idOrigin m)) then m
      else if negb (String.eqb (p_state (data ev)) pending) then m
      else
        mk (idOrigin m) None
           (match p_type (data ev) with
            | success => Resolved (data ev)
            | failure => Rejected (data ev)
            end)
  end.

(** The messenger together with the provider waiting on it. *)
Record System := {
  messenger : t;
  provider : State }.

(** Modelled from the spec: delivery of one message to the page. The
    provider moves only when the message settles the pending promise, by
    the continuation [k] of the method that awaits it. *)
Definition deliver (k : Promise -> State -> State) (sys : System)
    (ev : MessageEvent) : System :=
  let m' := onMessage (messenger sys) ev in
  match promise (messenger sys), promise m' with
  | Unsettled, Unsettled => {| messenger := m'; provider := provider sys |}
  | Unsettled, settled => {| messenger := m'; provider := k settled (provider sys) |}
  | _, _ => {| messenger := m'; provider := provider sys |}
  end.

End Messenger.

(** ** A concrete platform

    Used to run the definitions on concrete inputs. *)

Definition is_hex_digit (c : ascii) : bool :=
  let n := Ascii.nat_of_ascii c in
  ((48 <=? n)%nat && (n <=? 57)%nat) || ((65 <=? n)%nat && (n <=? 70)%nat)
  || ((97 <=? n)%nat && (n <=? 102)%nat).

Fixpoint all_hex (s : string) : bool :=
  match s with
  | EmptyString => true
  | String c rest => is_hex_digit c && all_hex rest
  end.

(** Modelled from the spec: [validateIdAddress] (utils/validate-address) is
    not among the sources. This instance keeps the syntactic part of the rule,
    [0x] followed by forty hexadecimal digits, and returns the string as it
    is; the mixed-case checksum, which needs Keccak-256, is left out. *)
Definition syntactic_validateIdAddress (v : option string) : option Address :=
  match v with
  | Some (String "0" (String "x" digits)) =>
      if (String.length digits =? 40)%nat && all_hex digits
      then Some (String "0" (String "x" digits)) else None
  | _ => None
  end.

(** A confirmation round-trip that answers with the signer it was asked for. *)
Definition echo_action (what : string) (a : ActionArgs) : M Value :=
  fun st => (Returned (VRemote (what +:+ ":" +:+ act_expectAddress a)), st).

Definition ronin : Chain := {| chain_id := 2020; chain_name := "Ronin" |}.
Definition saigon : Chain := {| chain_id := 2021; chain_name := "Saigon Testnet" |}.

Definition sample_platform : Platform := {|
  ID_ORIGIN_PROD := "https://id.skymavis.com";
  STORAGE_ADDRESS_KEY := "MAVIS.ID:ADDRESS";
  VIEM_CHAIN_MAPPING := <[2020%Z := ronin]> (<[2021%Z := saigon]> ∅);
  validateIdAddress := syntactic_validateIdAddress;
  getScopesParams := fun scopes => String.concat " " (default [] scopes);
  toHex := fun n => "0x" +:+ pretty n;
  window := Some {| location_origin := "https://dapp.example" |};
  personalSign := echo_action "personal_sign";
  signTypedDataV4 := echo_action "eth_signTypedData_v4";
  sendTransaction := echo_action "eth_sendTransaction";
  viemClient_request := fun _ args => fun st => (Returned (VRemote (method args)), st) |}.

Definition alice : Address := "0x1111111111111111111111111111111111111111".
Definition bob : Address := "0x2222222222222222222222222222222222222222".

Definition sample_wallet (a : option Address) : MavisIdWallet :=
  {| clientId := "client-1"; idOrigin := "https://id.skymavis.com";
     redirectUrl := "https://dapp.example"; scopes := ["openid"; "wallet"];
     chainId := 2020; address := a;
     viemClient := {| client_chain := ronin |};
     communicateHelper := {| helper_origin := "https://id.skymavis.com" |} |}.

(** An ID provider that answers every round with the same payload. *)
Definition answering (payload : IdResponse) : nat -> Handshake :=
  fun _ => {| hs_state := "token-0"; hs_settlement := Resolves payload |}.

Definition sample_state (a : option Address) (stored : gmap string string)
    (payload : IdResponse) : State :=
  mkState (sample_wallet a) stored [] (answering payload) 0.

Definition good_payload : IdResponse :=
  {| id_token := Some "jwt"; resp_address := Some bob |}.
Definition bad_payload : IdResponse :=
  {| id_token := Some "jwt"; resp_address := Some "0x12345" |}.

Definition sample_window : Window := {| location_origin := "https://dapp.example" |}.

Definition stored_session (a : Address) : gmap string string :=
  <["MAVIS.ID:ADDRESS" := a]> ∅.

Definition call (name : string) : RequestArgs := {| method := name; params := [] |}.

Definition sample_opts (chain : Z) (requested : option (list Scope)) : MavisIdWalletOpts :=
  {| auth_opts := {| opt_clientId := "client-1"; opt_idOrigin := None;
                     opt_scopes := requested; opt_redirectUrl := None |};
     opt_chainId := chain |}.

Definition forged (state : string) : Messenger.MessageEvent :=
  {| Messenger.origin := "https://evil.example";
     Messenger.data :=
       {| Messenger.p_method := "auth"; Messenger.p_type := Messenger.success;
          Messenger.p_state := state; Messenger.p_data := "jwt";
          Messenger.p_address := bob |} |}.

Definition genuine (state : string) (status : Messenger.Status)
  : Messenger.MessageEvent :=
  {| Messenger.origin := "https://id.skymavis.com";
     Messenger.data :=
       {| Messenger.p_method := "auth"; Messenger.p_type := status;
          Messenger.p_state := state; Messenger.p_data := "jwt";
          Messenger.p_address := bob |} |}.

Definition waiting_system : Messenger.System :=
  {| Messenger.messenger :=
       Messenger.open_request
         (Messenger.mk "https://id.skymavis.com" None Messenger.Unsettled) "token-0";
     Messenger.provider := sample_state None ∅ good_payload |}.

(** An ID provider whose popup the user closes every time. *)
Definition popup_closed : Error :=
  ForeignError "UserRejectedRequestError" "User rejected the request.".

Definition closing : nat -> Handshake :=
  fun _ => {| hs_state := "token-0"; hs_settlement := Rejects popup_closed |}.

Definition closing_state (a : option Address) (stored : gmap string string) : State :=
  mkState (sample_wallet a) stored [] closing 0.

Definition sample_calls : list Call :=
  [CallConnect; CallRequest (call "eth_accounts"); CallDisconnect; CallDisconnect;
   CallRequest (call "eth_requestAccounts"); CallRequest (call "eth_chainId")].

Definition returned_query : list (string * string) :=
  [("method", "auth"); ("type", "success"); ("state", "s"); ("data", "jwt");
   ("address", alice)].

(** * Properties *)

Lemma as_truthy_Some (v : option string) (a : string) :
  as_truthy v = Some a <-> v = Some a /\ a <> EmptyString.
Proof.
  destruct v as [s|]; simpl; [|split; [discriminate | intros [? _]; discriminate]].
  destruct (String.eqb_spec s EmptyString) as [->|Hne]; split.
  - discriminate.
  - intros [[= <-] Hne]. congruence.
  - intros [= <-]. auto.
  - intros [[= <-] _]. reflexivity.
Qed.

Lemma truthy_as_truthy (v : option string) :
  truthy v = false <-> as_truthy v = None.
Proof.
  destruct v as [s|]; simpl; [|tauto].
  destruct (String.eqb s EmptyString); simpl; split; congruence.
Qed.

Lemma truthy_true (v : option string) :
  truthy v = true <-> exists a, as_truthy v = Some a.
Proof.
  destruct v as [s|]; simpl.
  - destruct (String.eqb s EmptyString); simpl; split;
      [discriminate | intros [a ?]; discriminate | eauto | reflexivity].
  - split; [discriminate | intros [a ?]; discriminate].
Qed.

Section Construction.
Context `{P : Platform}.

Lemma addDefaultScopes_app (given : list Scope) :
  addDefaultScopes given =
    given ++ (if bool_decide ("openid" ∈ given) then [] else ["openid"])
          ++ (if bool_decide ("wallet" ∈ given) then [] else ["wallet"]).
Proof.
  unfold addDefaultScopes.
  destruct (bool_decide_reflect ("openid" ∈ given)) as [Ho|Ho].
  - rewrite app_nil_l.
    destruct (bool_decide ("wallet" ∈ given)); [rewrite app_nil_r|]; reflexivity.
  - assert (Hw : "wallet" ∈ given ++ ["openid"] <-> "wallet" ∈ given).
    { rewrite elem_of_app, list_elem_of_singleton.
      split; [intros [?|?]; [assumption | discriminate] | auto]. }
    destruct (bool_decide_reflect ("wallet" ∈ given)) as [Hg|Hg].
    + rewrite bool_decide_eq_true_2 by (apply Hw; assumption).
      reflexivity.
    + rewrite bool_decide_eq_false_2 by (rewrite Hw; assumption).
      rewrite <- app_assoc. reflexivity.
Qed.

Lemma addDefaultScopes_elem (given : list Scope) :
  "openid" ∈ addDefaultScopes given /\ "wallet" ∈ addDefaultScopes given.
Proof.
  rewrite addDefaultScopes_app.
  destruct (bool_decide_reflect ("openid" ∈ given));
    destruct (bool_decide_reflect ("wallet" ∈ given));
    rewrite !elem_of_app, ?list_elem_of_singleton; auto.
Qed.

Lemma create_inr (options : MavisIdWalletOpts) (w : MavisIdWallet) :
  create options = inr w ->
  scopes w = addDefaultScopes (default [] (opt_scopes (auth_opts options)))
  /\ chainId w = opt_chainId options
  /\ address w = None
  /\ exists chain, VIEM_CHAIN_MAPPING !! opt_chainId options = Some chain
                   /\ viemClient w = {| client_chain := chain |}.
Proof.
  unfold create, createViemClient.
  destruct (VIEM_CHAIN_MAPPING !! opt_chainId options) as [chain|]; [|discriminate].
  intros [= <-]. simpl. repeat split. exists chain. auto.
Qed.

(** C9. Every constructed instance carries the caller's scopes, in their
    order, followed by "openid" if the caller did not list it and then by
    "wallet" if the caller did not list it; both are in the resulting list,
    and neither is appended when the caller already listed it. *)
Theorem create_effective_scopes (options : MavisIdWalletOpts) (w : MavisIdWallet) :
  create options = inr w ->
  let given := default [] (opt_scopes (auth_opts options)) in
  scopes w =
    given ++ (if bool_decide ("openid" ∈ given) then [] else ["openid"])
          ++ (if bool_decide ("wallet" ∈ given) then [] else ["wallet"])
  /\ "openid" ∈ scopes w
  /\ "wallet" ∈ scopes w
  /\ count_occ string_dec (scopes w) "openid"
       = Nat.max 1 (count_occ string_dec given "openid")
  /\ count_occ string_dec (scopes w) "wallet"
       = Nat.max 1 (count_occ string_dec given "wallet").
Proof.
  intros Hc given. apply create_inr in Hc as (Hs & _).
  fold given in Hs. rewrite Hs.
  split; [apply addDefaultScopes_app|].
  split; [apply addDefaultScopes_elem|].
  split; [apply addDefaultScopes_elem|].
  rewrite addDefaultScopes_app, !count_occ_app.
  assert (Hpos : forall x, x ∈ given -> 1 <= count_occ string_dec given x).
  { intros x Hx. apply (count_occ_In string_dec). apply list_elem_of_In, Hx. }
  assert (Hzero : forall x, ¬ x ∈ given -> count_occ string_dec given x = 0).
  { intros x Hx. apply (count_occ_not_In string_dec).
    intros Hin. apply Hx, list_elem_of_In, Hin. }
  destruct (bool_decide_reflect ("openid" ∈ given)) as [Ho|Ho];
    destruct (bool_decide_reflect ("wallet" ∈ given)) as [Hw|Hw];
    simpl;
    try (pose proof (Hpos _ Ho)); try (pose proof (Hpos _ Hw));
    try (pose proof (Hzero _ Ho)); try (pose proof (Hzero _ Hw));
    split; lia.
Qed.

(** C7. A chain id with no entry in the chain mapping makes construction
    throw the error built from "Chain <id> is not supported." and yields no
    instance; a mapped chain id yields an instance bound to that chain. *)
Theorem create_chain_mapping :
  (forall options,
     VIEM_CHAIN_MAPPING !! opt_chainId options = None ->
     create options =
       inl (ChainDisconnectedError
              ("Chain " +:+ pretty (opt_chainId options) +:+ " is not supported."))
     /\ forall w, create options <> inr w)
  /\ (forall options chain,
        VIEM_CHAIN_MAPPING !! opt_chainId options = Some chain ->
        exists w, create options = inr w
                  /\ chainId w = opt_chainId options
                  /\ viemClient w = {| client_chain := chain |}).
Proof.
  split.
  - intros options Hnone. unfold create, createViemClient. rewrite Hnone.
    split; [reflexivity | discriminate].
  - intros options chain Hsome. unfold create, createViemClient. rewrite Hsome.
    eexists. split; [reflexivity|]. simpl. auto.
Qed.

(** C8. [parseRedirectUrl] throws "parseRedirectUrl: invalid method" when the
    method parameter is not "auth", throws "parseRedirectUrl: authorization
    failed" when the method is "auth" and the type parameter is not "success",
    and otherwise returns the state parameter, the data parameter as the
    access token, and the validated address parameter. *)
Theorem parseRedirectUrl_checks (searchParams : list (string * string)) :
  let get := searchParams_get searchParams in
  (get "method" <> Some "auth" \/ get "type" <> Some "success" ->
     exists message, parseRedirectUrl searchParams = inl message
       /\ (message = "parseRedirectUrl: invalid method"
           \/ message = "parseRedirectUrl: authorization failed"))
  /\ (get "method" <> Some "auth" ->
        parseRedirectUrl searchParams = inl "parseRedirectUrl: invalid method")
  /\ (get "method" = Some "auth" -> get "type" <> Some "success" ->
        parseRedirectUrl searchParams = inl "parseRedirectUrl: authorization failed")
  /\ (get "method" = Some "auth" -> get "type" = Some "success" ->
        parseRedirectUrl searchParams =
          inr {| rr_state := get "state";
                 rr_accessToken := get "data";
                 rr_address := validateIdAddress (get "address") |}).
Proof.
  intros get. unfold parseRedirectUrl. fold get.
  destruct (bool_decide_reflect (get "method" = Some "auth")) as [Hm|Hm];
    destruct (bool_decide_reflect (get "type" = Some "success")) as [Ht|Ht];
    simpl; repeat split; intros; try congruence; try tauto; eauto.
Qed.

End Construction.

Section Session.
Context `{P : Platform}.

(** [connect], by the way the handshake ends. *)
Lemma connect_cases (st : State) (win : Window) :
  window = Some win ->
  let st1 := mkState (this st) (localStorage st) (trace st ++ [connect_popup win st])
               (idProvider st) (S (round st)) in
  connect st =
    match hs_settlement (idProvider st (round st)) with
    | Resolves authData =>
        match as_truthy (validateIdAddress (resp_address authData)) with
        | None =>
            (Thrown (UnauthorizedProviderError "ID do NOT return valid address"), st1)
        | Some a =>
            (Returned {| cr_accessToken := id_token authData; cr_address := a |},
             mkState (set_address (Some a) (this st))
               (<[STORAGE_ADDRESS_KEY := a]> (localStorage st))
               (trace st ++ [connect_popup win st;
                             Emit Eip1193EventName.accountsChanged (Accounts [a]);
                             Emit Eip1193EventName.connect (ConnectInfo (chainId (this st)))])
               (idProvider st) (S (round st)))
        end
    | Rejects err => (Thrown err, st1)
    | NeverSettles => (Pending, st1)
    end.
Proof.
  intros Hwin st1. unfold connect. rewrite Hwin.
  unfold bind, sendRequest, openPopup, connect_popup.
  destruct (hs_settlement (idProvider st (round st))) as [authData|err|]; try reflexivity.
  destruct (as_truthy (validateIdAddress (resp_address authData))) as [a|]; [|reflexivity].
  unfold setStorage, assign_address, emit, ret, with_trace, with_this,
    with_localStorage, with_round; simpl.
  rewrite <- !app_assoc. reflexivity.
Qed.

Lemma getIdAddress_in_memory (st : State) (a : Address) :
  address (this st) = Some a -> a <> EmptyString -> getIdAddress st = Some a.
Proof.
  intros Ha Hne. unfold getIdAddress. rewrite Ha. simpl.
  destruct (String.eqb_spec a EmptyString); [contradiction | reflexivity].
Qed.

(** C1. When the handshake resolves with a payload whose address does not
    validate, [connect] rejects with UnauthorizedProviderError built from
    "ID do NOT return valid address"; the instance and the persistent storage
    are as they were, so an empty cache stays empty, and the only effect is
    the popup: no event is emitted. *)
Theorem connect_invalid_address_rejected (st : State) (win : Window)
    (authData : IdResponse) :
  window = Some win ->
  hs_settlement (idProvider st (round st)) = Resolves authData ->
  truthy (validateIdAddress (resp_address authData)) = false ->
  exists st',
    connect st =
      (Thrown (UnauthorizedProviderError "ID do NOT return valid address"), st')
    /\ this st' = this st
    /\ localStorage st' = localStorage st
    /\ getIdAddress st' = getIdAddress st
    /\ trace st' = trace st ++ [connect_popup win st]
    /\ emitted (trace st') = emitted (trace st).
Proof.
  intros Hwin Hres Hbad. apply truthy_as_truthy in Hbad.
  rewrite (connect_cases st win Hwin), Hres, Hbad.
  eexists. split; [reflexivity|]. simpl. repeat split.
  unfold emitted. rewrite List.filter_app. simpl. apply app_nil_r.
Qed.

(** C2. In every state, cached address or not, eth_requestAccounts opens the
    authorization popup and uses up a handshake round; when the handshake
    resolves with a valid address the request returns exactly that address,
    stores it in storage and in memory, emits accountsChanged with it and
    then connect, and the provider is connected with that address. *)
Theorem eth_requestAccounts_reauthorizes (args : RequestArgs) (st : State)
    (win : Window) :
  method args = "eth_requestAccounts" ->
  window = Some win ->
  (exists later,
     trace (snd (request args st)) = trace st ++ connect_popup win st :: later)
  /\ round (snd (request args st)) = S (round st)
  /\ (forall authData a,
        hs_settlement (idProvider st (round st)) = Resolves authData ->
        as_truthy (validateIdAddress (resp_address authData)) = Some a ->
        let st' :=
          mkState (set_address (Some a) (this st))
            (<[STORAGE_ADDRESS_KEY := a]> (localStorage st))
            (trace st ++ [connect_popup win st;
                          Emit Eip1193EventName.accountsChanged (Accounts [a]);
                          Emit Eip1193EventName.connect (ConnectInfo (chainId (this st)))])
            (idProvider st) (S (round st)) in
        request args st = (Returned (VAccounts [a]), st')
        /\ getIdAddress st' = Some a
        /\ Connected st').
Proof.
  intros Hm Hwin.
  assert (Hreq : request args st =
                 (await result <- connect; ret (VAccounts [cr_address result])) st).
  { unfold request. rewrite Hm. reflexivity. }
  rewrite Hreq. unfold bind. rewrite (connect_cases st win Hwin).
  destruct (hs_settlement (idProvider st (round st))) as [authData|err|] eqn:Hs.
  - destruct (as_truthy (validateIdAddress (resp_address authData))) as [a|] eqn:Hv;
      simpl.
    + split; [eexists; reflexivity|]. split; [reflexivity|].
      intros authData' a' [= <-] Ha'. rewrite Hv in Ha'. injection Ha' as <-.
      apply as_truthy_Some in Hv as [_ Hne].
      assert (Hget : getIdAddress
                (mkState (set_address (Some a) (this st))
                   (<[STORAGE_ADDRESS_KEY := a]> (localStorage st))
                   (trace st ++ [connect_popup win st;
                      Emit Eip1193EventName.accountsChanged (Accounts [a]);
                      Emit Eip1193EventName.connect (ConnectInfo (chainId (this st)))])
                   (idProvider st) (S (round st))) = Some a).
      { apply getIdAddress_in_memory; [reflexivity | assumption]. }
      split; [reflexivity|]. split; [exact Hget|].
      exists a. rewrite Hget. apply as_truthy_Some. auto.
    + split; [exists []; reflexivity|]. split; [reflexivity|].
      intros authData' a' [= <-] Ha'. congruence.
  - simpl. split; [exists []; reflexivity|]. split; [reflexivity|]. discriminate.
  - simpl. split; [exists []; reflexivity|]. split; [reflexivity|]. discriminate.
Qed.

End Session.

Section Dispatch.
Context `{P : Platform}.

(** C4. [disconnect] always removes the entry under the address key and
    clears the in-memory address. It emits accountsChanged with the empty
    list and then disconnect with the provider-disconnected error exactly
    when the in-memory address was set; otherwise it emits nothing, and the
    storage is as it was when nothing was stored under the key. *)
Theorem disconnect_clears_and_notifies (st : State) :
  exists st',
    disconnect st = (Returned tt, st')
    /\ localStorage st' = delete STORAGE_ADDRESS_KEY (localStorage st)
    /\ address (this st') = None
    /\ (truthy (address (this st)) = true ->
        trace st' =
          trace st ++
            [Emit Eip1193EventName.accountsChanged (Accounts []);
             Emit Eip1193EventName.disconnect
               (Failure (ProviderDisconnectedError
                           "The provider is disconnected from all chains."))])
    /\ (truthy (address (this st)) = false -> trace st' = trace st)
    /\ (localStorage st !! STORAGE_ADDRESS_KEY = None ->
        localStorage st' = localStorage st).
Proof.
  unfold disconnect, bind, removeStorage, assign_address. simpl.
  destruct (truthy (address (this st))) eqn:Ht.
  - eexists. split; [reflexivity|]. simpl.
    repeat split; try discriminate.
    + intros _. rewrite <- app_assoc. reflexivity.
    + intros Hnone. apply delete_id. exact Hnone.
  - eexists. split; [reflexivity|]. simpl.
    repeat split; try discriminate.
    intros Hnone. apply delete_id. exact Hnone.
Qed.

(** C5. eth_accounts returns the in-memory address as a one-element list
    when it is set; otherwise the validated stored value as a one-element
    list when validation accepts it, and the empty list when it does not. In
    every case the state is returned as it was: no popup is opened and no
    handshake round is used. *)
Theorem eth_accounts_reads_cache (args : RequestArgs) (st : State) :
  method args = "eth_accounts" ->
  exists result,
    request args st = (Returned (VAccounts result), st)
    /\ (forall a, address (this st) = Some a -> a <> EmptyString -> result = [a])
    /\ (truthy (address (this st)) = false ->
        let stored := js_or (localStorage st !! STORAGE_ADDRESS_KEY) EmptyString in
        (forall a, as_truthy (validateIdAddress (Some stored)) = Some a -> result = [a])
        /\ (as_truthy (validateIdAddress (Some stored)) = None -> result = []))
    /\ (Connected st -> exists a, result = [a])
    /\ (Disconnected st -> result = []).
Proof.
  intros Hm. unfold request. rewrite Hm. simpl.
  eexists. split; [reflexivity|].
  split; [|split; [|split]].
  - intros a Ha Hne. rewrite (getIdAddress_in_memory st a Ha Hne).
    assert (H : as_truthy (Some a) = Some a) by (apply as_truthy_Some; auto).
    rewrite H. reflexivity.
  - intros Ht. unfold getIdAddress, getStorage. rewrite Ht.
    split.
    + intros a Ha. rewrite Ha. reflexivity.
    + intros Hn. rewrite Hn. reflexivity.
  - intros [a Ha]. rewrite Ha. eauto.
  - unfold Disconnected. intros Hd. rewrite Hd. reflexivity.
Qed.

Lemma request_signing (action : ActionArgs -> M Value) (chain : option Z)
    (args : RequestArgs) (st : State) :
  request args st =
    (await expectAddress <- getIdAddressOrConnect;
     action (action_args (this st) (params args) chain expectAddress)) st ->
  uses_cached_or_connects action chain args st.
Proof.
  intros Hreq. unfold uses_cached_or_connects. rewrite Hreq.
  unfold bind, getIdAddressOrConnect. split.
  - intros a Ha. rewrite Ha. reflexivity.
  - intros Hn st'. rewrite Hn. unfold bind, ret.
    repeat split; [intros r Hc | intros e Hc | intros Hc]; rewrite Hc; reflexivity.
Qed.

(** C6. personal_sign, eth_signTypedData_v4 and eth_sendTransaction each
    delegate to their confirmation round-trip with the cached address as the
    expected signer when one is cached; without one they run [connect] first
    and delegate, in the state [connect] leaves, with the address it returns;
    when [connect] rejects or stays pending, nothing is delegated. *)
Theorem signing_methods_use_cached_or_connect (args : RequestArgs) (st : State) :
  (method args = "personal_sign" ->
     uses_cached_or_connects personalSign None args st)
  /\ (method args = "eth_signTypedData_v4" ->
        uses_cached_or_connects signTypedDataV4 (Some (chainId (this st))) args st)
  /\ (method args = "eth_sendTransaction" ->
        uses_cached_or_connects sendTransaction (Some (chainId (this st))) args st).
Proof.
  split; [|split]; intros Hm; apply request_signing; unfold request; rewrite Hm;
    reflexivity.
Qed.

(** C10. On a handshake that resolves with a payload whose address does not
    validate, [authorize] resolves, with the token of the payload and an
    undefined address, while [connect] rejects with
    UnauthorizedProviderError. *)
Theorem authorize_resolves_where_connect_rejects (opts : AuthorizeOpts)
    (st : State) (win : Window) (authData : IdResponse) :
  window = Some win ->
  hs_settlement (idProvider st (round st)) = Resolves authData ->
  validateIdAddress (resp_address authData) = None ->
  (exists st',
     authorize opts st =
       (Returned {| ar_accessToken := id_token authData; ar_address := None |}, st')
     /\ this st' = this st /\ localStorage st' = localStorage st)
  /\ (exists st'',
        connect st =
          (Thrown (UnauthorizedProviderError "ID do NOT return valid address"), st'')).
Proof.
  intros Hwin Hres Hbad. split.
  - unfold authorize. rewrite Hwin. unfold bind, sendRequest. rewrite Hres.
    unfold ret. rewrite Hbad. eexists. split; [reflexivity|]. split; reflexivity.
  - rewrite (connect_cases st win Hwin), Hres, Hbad. simpl. eauto.
Qed.

End Dispatch.

(** ** The messenger *)

Lemma onMessage_foreign_origin (m : Messenger.t) (ev : Messenger.MessageEvent) :
  Messenger.origin ev <> Messenger.idOrigin m -> Messenger.onMessage m ev = m.
Proof.
  intros Hne. unfold Messenger.onMessage.
  destruct (Messenger.token m) as [pending|]; [|reflexivity].
  destruct (String.eqb_spec (Messenger.origin ev) (Messenger.idOrigin m));
    [contradiction | reflexivity].
Qed.

Lemma deliver_foreign_origin (k : Messenger.Promise -> State -> State)
    (sys : Messenger.System) (ev : Messenger.MessageEvent) :
  Messenger.origin ev <> Messenger.idOrigin (Messenger.messenger sys) ->
  Messenger.deliver k sys ev = sys.
Proof.
  intros Hne. unfold Messenger.deliver.
  rewrite (onMessage_foreign_origin _ _ Hne).
  destruct sys as [m p]; simpl. destruct (Messenger.promise m); reflexivity.
Qed.

(** C3. While a request is pending and its promise unsettled, messages from
    origins other than the configured ID-provider origin, however many and
    whatever they carry, leave the promise unsettled, the request pending
    under the same token, and the provider state as it was. *)
Theorem foreign_origin_never_settles (k : Messenger.Promise -> State -> State)
    (sys : Messenger.System) (pending : string)
    (evs : list Messenger.MessageEvent) :
  Messenger.token (Messenger.messenger sys) = Some pending ->
  Messenger.promise (Messenger.messenger sys) = Messenger.Unsettled ->
  Forall (fun ev => Messenger.origin ev
                    <> Messenger.idOrigin (Messenger.messenger sys)) evs ->
  let sys' := fold_left (Messenger.deliver k) evs sys in
  Messenger.promise (Messenger.messenger sys') = Messenger.Unsettled
  /\ Messenger.token (Messenger.messenger sys') = Some pending
  /\ Messenger.provider sys' = Messenger.provider sys
  /\ sys' = sys.
Proof.
  intros Htok Hprom Hall sys'.
  assert (Hsame : sys' = sys).
  { subst sys'. induction Hall as [|ev evs Hev _ IH]; simpl.
    - reflexivity.
    - rewrite (deliver_foreign_origin k sys ev Hev). exact IH. }
  rewrite Hsame. auto.
Qed.

(** The listener is not inert: the same request is settled by a message from
    the ID provider that carries its token, and only by such a message. *)
Lemma matching_message_settles (m : Messenger.t) (ev : Messenger.MessageEvent)
    (pending : string) :
  Messenger.token m = Some pending ->
  Messenger.origin ev = Messenger.idOrigin m ->
  Messenger.p_state (Messenger.data ev) = pending ->
  Messenger.token (Messenger.onMessage m ev) = None
  /\ Messenger.promise (Messenger.onMessage m ev) =
       match Messenger.p_type (Messenger.data ev) with
       | Messenger.success => Messenger.Resolved (Messenger.data ev)
       | Messenger.failure => Messenger.Rejected (Messenger.data ev)
       end.
Proof.
  intros Htok Horigin Hstate. unfold Messenger.onMessage.
  rewrite Htok, Horigin, Hstate, !String.eqb_refl. simpl. auto.
Qed.

Lemma stale_token_ignored (m : Messenger.t) (ev : Messenger.MessageEvent)
    (pending : string) :
  Messenger.token m = Some pending ->
  Messenger.p_state (Messenger.data ev) <> pending ->
  Messenger.onMessage m ev = m.
Proof.
  intros Htok Hne. unfold Messenger.onMessage. rewrite Htok.
  destruct (String.eqb (Messenger.origin ev) (Messenger.idOrigin m)); [|reflexivity].
  destruct (String.eqb_spec (Messenger.p_state (Messenger.data ev)) pending);
    [contradiction | reflexivity].
Qed.

Example genuine_reply_resolves :
  Messenger.promise
    (Messenger.onMessage (Messenger.messenger waiting_system)
       (genuine "token-0" Messenger.success))
  = Messenger.Resolved (Messenger.data (genuine "token-0" Messenger.success)).
Proof. reflexivity. Qed.

(** ** The statements at concrete inputs *)

Lemma create_effective_scopes_witness :
  exists w,
    create (P := sample_platform) (sample_opts 2020 (Some ["wallet"; "email"])) = inr w
    /\ scopes w = ["wallet"; "email"; "openid"]
    /\ "openid" ∈ scopes w
    /\ "wallet" ∈ scopes w.
Proof.
  eexists. split; [reflexivity|].
  destruct (create_effective_scopes (P := sample_platform)
              (sample_opts 2020 (Some ["wallet"; "email"])) _ eq_refl)
    as (Hscopes & Hopenid & Hwallet & _).
  split; [exact Hscopes|]. split; [exact Hopenid | exact Hwallet].
Defined.

Lemma create_chain_mapping_witness :
  VIEM_CHAIN_MAPPING (Platform := sample_platform) !! 1%Z = None
  /\ create (P := sample_platform) (sample_opts 1 None)
       = inl (ChainDisconnectedError "Chain 1 is not supported.")
  /\ VIEM_CHAIN_MAPPING (Platform := sample_platform) !! 2021%Z = Some saigon
  /\ exists w, create (P := sample_platform) (sample_opts 2021 None) = inr w
               /\ chainId w = 2021%Z
               /\ viemClient w = {| client_chain := saigon |}.
Proof.
  split; [reflexivity|].
  split; [exact (proj1 (proj1 (create_chain_mapping (P := sample_platform))
                          (sample_opts 1 None) eq_refl))|].
  split; [reflexivity|].
  exact (proj2 (create_chain_mapping (P := sample_platform))
           (sample_opts 2021 None) saigon eq_refl).
Defined.

Lemma parseRedirectUrl_checks_witness :
  parseRedirectUrl (P := sample_platform)
      [("method", "auth"); ("type", "failure"); ("state", "s")]
    = inl "parseRedirectUrl: authorization failed"
  /\ parseRedirectUrl (P := sample_platform)
       [("method", "auth"); ("type", "success"); ("state", "s"); ("data", "jwt");
        ("address", alice)]
     = inr {| rr_state := Some "s"; rr_accessToken := Some "jwt";
              rr_address := Some alice |}.
Proof.
  split.
  - refine (proj1 (proj2 (proj2 (parseRedirectUrl_checks (P := sample_platform)
              [("method", "auth"); ("type", "failure"); ("state", "s")]))) eq_refl _).
    discriminate.
  - exact (proj2 (proj2 (proj2 (parseRedirectUrl_checks (P := sample_platform)
              [("method", "auth"); ("type", "success"); ("state", "s"); ("data", "jwt");
               ("address", alice)]))) eq_refl eq_refl).
Defined.

Lemma connect_invalid_address_rejected_witness :
  let st := sample_state None ∅ bad_payload in
  window (Platform := sample_platform) = Some sample_window
  /\ hs_settlement (idProvider st (round st)) = Resolves bad_payload
  /\ truthy (validateIdAddress (Platform := sample_platform)
               (resp_address bad_payload)) = false
  /\ exists st',
       connect (P := sample_platform) st =
         (Thrown (UnauthorizedProviderError "ID do NOT return valid address"), st')
       /\ this st' = this st
       /\ localStorage st' = ∅
       /\ emitted (trace st') = [].
Proof.
  intros st. split; [reflexivity|]. split; [reflexivity|]. split; [reflexivity|].
  destruct (connect_invalid_address_rejected (P := sample_platform) st sample_window
              bad_payload eq_refl eq_refl eq_refl)
    as (st' & Hc & Hthis & Hstore & _ & _ & Hem).
  exists st'. split; [exact Hc|]. split; [exact Hthis|].
  split; [exact Hstore | exact Hem].
Defined.

(** At a payload with a malformed address, the error [connect] rejects with
    is named UnauthorizedProviderError, not InvalidAddressError. *)
Lemma connect_invalid_address_error_class :
  let st := sample_state None ∅ bad_payload in
  truthy (validateIdAddress (Platform := sample_platform)
            (resp_address bad_payload)) = false
  /\ exists e st',
       connect (P := sample_platform) st = (Thrown e, st')
       /\ error_name e = "UnauthorizedProviderError"
       /\ error_name e <> "InvalidAddressError".
Proof.
  intros st. split; [reflexivity|].
  eexists. eexists. split; [reflexivity|]. split; [reflexivity | discriminate].
Qed.

Lemma eth_requestAccounts_reauthorizes_witness :
  let st := sample_state (Some alice) (stored_session alice) good_payload in
  method (call "eth_requestAccounts") = "eth_requestAccounts"
  /\ window (Platform := sample_platform) = Some sample_window
  /\ getIdAddress (P := sample_platform) st = Some alice
  /\ exists st',
       request (P := sample_platform) (call "eth_requestAccounts") st
         = (Returned (VAccounts [bob]), st')
       /\ getIdAddress (P := sample_platform) st' = Some bob
       /\ localStorage st' = stored_session bob
       /\ trace st' =
            [connect_popup (P := sample_platform) sample_window st;
             Emit Eip1193EventName.accountsChanged (Accounts [bob]);
             Emit Eip1193EventName.connect (ConnectInfo 2020)].
Proof.
  intros st. split; [reflexivity|]. split; [reflexivity|]. split; [reflexivity|].
  destruct (eth_requestAccounts_reauthorizes (P := sample_platform)
              (call "eth_requestAccounts") st sample_window eq_refl eq_refl)
    as (_ & _ & Hok).
  destruct (Hok good_payload bob eq_refl eq_refl) as (Hreq & Hget & _).
  eexists. split; [exact Hreq|]. split; [exact Hget|].
  split; reflexivity.
Defined.

Lemma foreign_origin_never_settles_witness :
  let sys' :=
    fold_left (Messenger.deliver (fun _ st => with_round 99 st))
      [forged "token-0"; forged "other"] waiting_system in
  Messenger.token (Messenger.messenger waiting_system) = Some "token-0"
  /\ Messenger.promise (Messenger.messenger sys') = Messenger.Unsettled
  /\ Messenger.provider sys' = Messenger.provider waiting_system.
Proof.
  intros sys'. split; [reflexivity|].
  assert (Hforged : Forall (fun ev => Messenger.origin ev
                      <> Messenger.idOrigin (Messenger.messenger waiting_system))
                      [forged "token-0"; forged "other"]).
  { repeat constructor; discriminate. }
  destruct (foreign_origin_never_settles (fun _ st => with_round 99 st)
              waiting_system "token-0" [forged "token-0"; forged "other"]
              eq_refl eq_refl Hforged)
    as (Hp & _ & Hprov & _).
  split; [exact Hp | exact Hprov].
Defined.

Lemma disconnect_clears_and_notifies_witness :
  let st := sample_state (Some alice) (stored_session alice) good_payload in
  exists st',
    disconnect (P := sample_platform) st = (Returned tt, st')
    /\ localStorage st' = ∅
    /\ address (this st') = None
    /\ trace st' =
         [Emit Eip1193EventName.accountsChanged (Accounts []);
          Emit Eip1193EventName.disconnect
            (Failure (ProviderDisconnectedError
                        "The provider is disconnected from all chains."))].
Proof.
  intros st.
  destruct (disconnect_clears_and_notifies (P := sample_platform) st)
    as (st' & Hd & Hstore & Haddr & Hset & _ & _).
  exists st'. split; [exact Hd|]. split; [exact Hstore|]. split; [exact Haddr|].
  exact (Hset eq_refl).
Defined.

(** Two states that separate [disconnect] from the cache it clears. An instance
    whose session is cached only in storage is connected, and [disconnect]
    ends that session without emitting anything. An instance whose stored
    value does not validate is disconnected, and [disconnect] removes the
    stored value. *)
Lemma disconnect_stored_session_silent :
  let st := sample_state None (stored_session alice) good_payload in
  let st2 := sample_state None (stored_session "garbage") good_payload in
  (Connected (P := sample_platform) st
   /\ exists st',
        disconnect (P := sample_platform) st = (Returned tt, st')
        /\ trace st' = []
        /\ trace st' <>
             trace st ++
               [Emit Eip1193EventName.accountsChanged (Accounts []);
                Emit Eip1193EventName.disconnect
                  (Failure (ProviderDisconnectedError
                              "The provider is disconnected from all chains."))])
  /\ (Disconnected (P := sample_platform) st2
      /\ exists st',
           disconnect (P := sample_platform) st2 = (Returned tt, st')
           /\ localStorage st' <> localStorage st2).
Proof.
  intros st st2. split.
  - split; [exists alice; reflexivity|].
    eexists. split; [reflexivity|]. split; [reflexivity | discriminate].
  - split; [reflexivity|].
    eexists. split; [reflexivity|]. simpl.
    intros Heq.
    assert (H : (delete "MAVIS.ID:ADDRESS" (stored_session "garbage")
                   : gmap string string) !! "MAVIS.ID:ADDRESS"
                = stored_session "garbage" !! "MAVIS.ID:ADDRESS")
      by (rewrite Heq; reflexivity).
    vm_compute in H. discriminate.
Qed.

Lemma eth_accounts_reads_cache_witness :
  let st := sample_state None (stored_session alice) good_payload in
  method (call "eth_accounts") = "eth_accounts"
  /\ request (P := sample_platform) (call "eth_accounts") st
       = (Returned (VAccounts [alice]), st).
Proof.
  intros st. split; [reflexivity|].
  destruct (eth_accounts_reads_cache (P := sample_platform) (call "eth_accounts") st
              eq_refl)
    as (result & Hreq & _ & Hstored & _).
  destruct (Hstored eq_refl) as (Hvalid & _).
  rewrite (Hvalid alice eq_refl) in Hreq. exact Hreq.
Defined.

Lemma signing_methods_use_cached_or_connect_witness :
  let cached := sample_state (Some alice) ∅ good_payload in
  let fresh := sample_state None ∅ good_payload in
  fst (request (P := sample_platform) (call "personal_sign") cached)
    = Returned (VRemote ("personal_sign:" +:+ alice))
  /\ trace (snd (request (P := sample_platform) (call "personal_sign") cached)) = []
  /\ fst (request (P := sample_platform) (call "eth_sendTransaction") fresh)
       = Returned (VRemote ("eth_sendTransaction:" +:+ bob)).
Proof.
  intros cached fresh.
  destruct (signing_methods_use_cached_or_connect (P := sample_platform)
              (call "personal_sign") cached) as (Hsign & _ & _).
  destruct (Hsign eq_refl) as (Hcached & _).
  rewrite (Hcached alice eq_refl).
  split; [reflexivity|]. split; [reflexivity|].
  destruct (signing_methods_use_cached_or_connect (P := sample_platform)
              (call "eth_sendTransaction") fresh) as (_ & _ & Hsend).
  destruct (Hsend eq_refl) as (_ & Hconnect).
  destruct (Hconnect eq_refl (snd (connect (P := sample_platform) fresh)))
    as (Hreturned & _ & _).
  rewrite (Hreturned {| cr_accessToken := Some "jwt"; cr_address := bob |} eq_refl).
  reflexivity.
Defined.

Lemma authorize_resolves_where_connect_rejects_witness :
  let st := sample_state None ∅ bad_payload in
  let opts := auth_opts (sample_opts 2020 None) in
  validateIdAddress (Platform := sample_platform) (resp_address bad_payload) = None
  /\ fst (authorize (P := sample_platform) opts st)
       = Returned {| ar_accessToken := Some "jwt"; ar_address := None |}
  /\ fst (connect (P := sample_platform) st)
       = Thrown (UnauthorizedProviderError "ID do NOT return valid address").
Proof.
  intros st opts. split; [reflexivity|].
  destruct (authorize_resolves_where_connect_rejects (P := sample_platform) opts st
              sample_window bad_payload eq_refl eq_refl eq_refl)
    as ((st' & Hauth & _) & (st'' & Hconn)).
  rewrite Hauth, Hconn. split; reflexivity.
Defined.

(** * Further properties of the session *)

Section SessionLaws.
Context `{P : Platform}.

(** The three ways [connect] can go. *)
Lemma connect_outcome (st : State) :
  (window = None
   /\ connect st = (Thrown (ReferenceError "window is not defined"), st))
  \/ (exists win o,
        window = Some win
        /\ (forall r, o <> Returned r)
        /\ (forall authData,
              hs_settlement (idProvider st (round st)) = Resolves authData ->
              as_truthy (validateIdAddress (resp_address authData)) = None)
        /\ connect st = (o, launched win st))
  \/ (exists win authData a,
        window = Some win
        /\ hs_settlement (idProvider st (round st)) = Resolves authData
        /\ as_truthy (validateIdAddress (resp_address authData)) = Some a
        /\ connect st =
             (Returned {| cr_accessToken := id_token authData; cr_address := a |},
              authorized win a st)).
Proof.
  destruct window as [win|] eqn:Hwin.
  - right. pose proof (connect_cases st win Hwin) as Hc. simpl in Hc.
    destruct (hs_settlement (idProvider st (round st))) as [authData|err|] eqn:Hs.
    + destruct (as_truthy (validateIdAddress (resp_address authData))) as [a|] eqn:Hv.
      * right. exists win, authData, a. auto.
      * left. exists win, (Thrown (UnauthorizedProviderError "ID do NOT return valid address")).
        split; [reflexivity|]. split; [discriminate|].
        split; [intros ? [= <-]; exact Hv | exact Hc].
    + left. exists win, (Thrown err).
      split; [reflexivity|]. split; [discriminate|]. split; [discriminate | exact Hc].
    + left. exists win, Pending.
      split; [reflexivity|]. split; [discriminate|]. split; [discriminate | exact Hc].
  - left. split; [reflexivity|]. unfold connect. rewrite Hwin. reflexivity.
Qed.


Lemma getIdAddress_launched (win : Window) (st : State) :
  getIdAddress (launched win st) = getIdAddress st.
Proof. reflexivity. Qed.

Lemma getIdAddress_authorized (win : Window) (a : Address) (st : State) :
  a <> EmptyString -> getIdAddress (authorized win a st) = Some a.
Proof. intros Hne. apply getIdAddress_in_memory; [reflexivity | exact Hne]. Qed.

(** X1. [connect] returns only what the validator made of the address in the
    payload the handshake resolved with: the address it returns is non-empty
    and is that validated address, the token is the payload's, and afterwards
    the address is held in memory, stored under the address key, and is what
    the session cache answers. *)
Theorem connect_returns_validated (st st' : State) (r : ConnectResult) :
  connect st = (Returned r, st') ->
  exists authData,
    hs_settlement (idProvider st (round st)) = Resolves authData
    /\ validateIdAddress (resp_address authData) = Some (cr_address r)
    /\ cr_address r <> EmptyString
    /\ cr_accessToken r = id_token authData
    /\ address (this st') = Some (cr_address r)
    /\ localStorage st' !! STORAGE_ADDRESS_KEY = Some (cr_address r)
    /\ getIdAddress st' = Some (cr_address r).
Proof.
  intros Hc.
  destruct (connect_outcome st)
    as [[_ H] | [(win & o & _ & Hno & _ & H) | (win & authData & a & _ & Hs & Hv & H)]];
    rewrite H in Hc.
  - discriminate.
  - injection Hc as Ho _. exfalso. exact (Hno r Ho).
  - injection Hc as <- <-. simpl.
    apply as_truthy_Some in Hv as [Hv Hne].
    exists authData. repeat split; try assumption.
    + apply lookup_insert_eq.
    + apply getIdAddress_in_memory; [reflexivity | assumption].
Qed.



(** X3. What the handshake is rejected with is what the caller gets: when
    the handshake promise rejects with an error, [connect], [authorize] and
    an eth_requestAccounts request reject with that same error, and when it
    never settles they stay pending. *)
Theorem handshake_rejection_propagates (st : State) (win : Window)
    (opts : AuthorizeOpts) (args : RequestArgs) :
  window = Some win ->
  method args = "eth_requestAccounts" ->
  (forall err,
     hs_settlement (idProvider st (round st)) = Rejects err ->
     fst (connect st) = Thrown err
     /\ fst (authorize opts st) = Thrown err
     /\ fst (request args st) = Thrown err)
  /\ (hs_settlement (idProvider st (round st)) = NeverSettles ->
      fst (connect st) = Pending
      /\ fst (authorize opts st) = Pending
      /\ fst (request args st) = Pending).
Proof.
  intros Hwin Hm.
  assert (Hreq : request args st =
                 (await result <- connect; ret (VAccounts [cr_address result])) st).
  { unfold request. rewrite Hm. reflexivity. }
  split; [intros err Hs | intros Hs].
  - rewrite Hreq. unfold bind, authorize. rewrite (connect_cases st win Hwin), Hwin.
    unfold bind, sendRequest. rewrite Hs. auto.
  - rewrite Hreq. unfold bind, authorize. rewrite (connect_cases st win Hwin), Hwin.
    unfold bind, sendRequest. rewrite Hs. auto.
Qed.


End SessionLaws.

Section SessionRoundTrips.
Context `{P : Platform}.

Lemma disconnect_state (st : State) :
  disconnect st =
    (Returned tt,
     mkState (set_address None (this st))
       (delete STORAGE_ADDRESS_KEY (localStorage st))
       (trace st ++
          if truthy (address (this st)) then
            [Emit Eip1193EventName.accountsChanged (Accounts []);
             Emit Eip1193EventName.disconnect
               (Failure (ProviderDisconnectedError
                           "The provider is disconnected from all chains."))]
          else [])
       (idProvider st) (round st)).
Proof.
  unfold disconnect.
  destruct (truthy (address (this st)));
    unfold bind, removeStorage, assign_address, emit, ret, with_trace, with_this,
      with_localStorage; simpl.
  - rewrite <- app_assoc. reflexivity.
  - rewrite app_nil_r. reflexivity.
Qed.

(** X5. [disconnect] is idempotent: called again right after itself it
    changes nothing and emits nothing. *)
Theorem disconnect_idempotent (st : State) :
  let st1 := snd (disconnect st) in
  disconnect st1 = (Returned tt, st1)
  /\ trace (snd (disconnect st1)) = trace st1.
Proof.
  intros st1. subst st1. rewrite (disconnect_state st). simpl.
  rewrite disconnect_state. simpl. rewrite delete_delete_eq, app_nil_r.
  split; reflexivity.
Qed.

(** X6. A successful [connect] followed by [disconnect] removes the address
    it stored: the storage is the original one without the address key, and
    exactly the original one when nothing was stored under that key before;
    no address is left in memory; and the events are accountsChanged with the
    address, connect, accountsChanged with the empty list, disconnect, in
    that order. *)
Theorem connect_then_disconnect (st : State) (win : Window)
    (authData : IdResponse) (a : Address) :
  window = Some win ->
  hs_settlement (idProvider st (round st)) = Resolves authData ->
  as_truthy (validateIdAddress (resp_address authData)) = Some a ->
  let st2 := snd (disconnect (snd (connect st))) in
  fst (disconnect (snd (connect st))) = Returned tt
  /\ localStorage st2 = delete STORAGE_ADDRESS_KEY (localStorage st)
  /\ (localStorage st !! STORAGE_ADDRESS_KEY = None -> localStorage st2 = localStorage st)
  /\ this st2 = set_address None (this st)
  /\ trace st2 =
       trace st ++
         [connect_popup win st;
          Emit Eip1193EventName.accountsChanged (Accounts [a]);
          Emit Eip1193EventName.connect (ConnectInfo (chainId (this st)));
          Emit Eip1193EventName.accountsChanged (Accounts []);
          Emit Eip1193EventName.disconnect
            (Failure (ProviderDisconnectedError
                        "The provider is disconnected from all chains."))].
Proof.
  intros Hwin Hs Hv st2. subst st2.
  rewrite (connect_cases st win Hwin), Hs, Hv. simpl.
  rewrite disconnect_state. simpl.
  apply as_truthy_Some in Hv as [_ Hne].
  assert (Ht : negb (String.eqb a EmptyString) = true).
  { destruct (String.eqb_spec a EmptyString); [contradiction | reflexivity]. }
  rewrite Ht, delete_insert_eq, <- app_assoc. simpl.
  repeat split. intros Hnone. apply delete_id. exact Hnone.
Qed.

(** X7. The session outlives the instance: after a successful [connect]
    with an address the validator maps to itself, any newly created instance
    on the same storage answers eth_accounts with that address, without a
    popup or a handshake. *)
Theorem session_survives_reload (st : State) (win : Window)
    (authData : IdResponse) (a : Address) (options : MavisIdWalletOpts)
    (w : MavisIdWallet) (accounts : RequestArgs) :
  window = Some win ->
  hs_settlement (idProvider st (round st)) = Resolves authData ->
  as_truthy (validateIdAddress (resp_address authData)) = Some a ->
  validateIdAddress (Some a) = Some a ->
  create options = inr w ->
  method accounts = "eth_accounts" ->
  let reloaded := with_this w (snd (connect st)) in
  request accounts reloaded = (Returned (VAccounts [a]), reloaded).
Proof.
  intros Hwin Hs Hv Hidem Hcreate Hm reloaded. subst reloaded.
  apply create_inr in Hcreate as (_ & _ & Haddr & _).
  rewrite (connect_cases st win Hwin), Hs, Hv. simpl.
  unfold request. rewrite Hm. simpl.
  unfold getIdAddress, getStorage. simpl. rewrite Haddr. simpl.
  rewrite lookup_insert_eq.
  pose proof Hv as Hv'. apply as_truthy_Some in Hv' as [_ Hne].
  assert (Hor : js_or (Some a) EmptyString = a).
  { simpl. destruct (String.eqb_spec a EmptyString); [contradiction | reflexivity]. }
  rewrite Hor, Hidem.
  assert (Ht : as_truthy (Some a) = Some a) by (apply as_truthy_Some; auto).
  rewrite Ht. reflexivity.
Qed.

(** X8. The storage is shared, the in-memory address is not: after one
    instance disconnects, another instance on the same storage that holds an
    address in memory still answers with it, while one that relied on the
    stored address is left with what the validator makes of the empty
    string. *)
Theorem disconnect_across_instances (st : State) (other : MavisIdWallet) :
  let after := with_this other (snd (disconnect st)) in
  (forall b, address other = Some b -> b <> EmptyString ->
     getIdAddress after = Some b)
  /\ (truthy (address other) = false ->
      getIdAddress after = validateIdAddress (Some EmptyString)).
Proof.
  intros after. subst after. rewrite disconnect_state. split.
  - intros b Hb Hne. apply getIdAddress_in_memory; [exact Hb | exact Hne].
  - intros Hf. unfold getIdAddress, getStorage. simpl. rewrite Hf.
    rewrite lookup_delete_eq. reflexivity.
Qed.

(** X9. Whenever [getIdAddressOrConnect] returns, the address it returns is
    non-empty and is the one the session cache answers afterwards; when an
    address was already cached, nothing has changed and no popup was opened. *)
Theorem getIdAddressOrConnect_returns_cached (st st' : State) (a : Address) :
  getIdAddressOrConnect st = (Returned a, st') ->
  a <> EmptyString
  /\ as_truthy (getIdAddress st') = Some a
  /\ (Connected st -> st' = st)
  /\ (Disconnected st -> exists win, st' = authorized win a st).
Proof.
  unfold getIdAddressOrConnect, Connected, Disconnected.
  destruct (as_truthy (getIdAddress st)) as [c|] eqn:Hc.
  - intros [= <- <-]. pose proof Hc as Hc'. apply as_truthy_Some in Hc' as [_ Hne].
    repeat split; auto. discriminate.
  - unfold bind.
    destruct (connect_outcome st)
      as [[_ H] | [(win & o & _ & Hno & _ & H) | (win & authData & b & _ & _ & Hv & H)]];
      rewrite H.
    + discriminate.
    + destruct o as [r| |]; [exfalso; exact (Hno r eq_refl) | discriminate | discriminate].
    + intros [= <- <-]. simpl.
      apply as_truthy_Some in Hv as [_ Hne].
      rewrite (getIdAddress_authorized win b st Hne).
      repeat split; eauto.
      * apply as_truthy_Some; auto.
      * intros [x Hx]. discriminate.
Qed.

End SessionRoundTrips.

Section CallSequences.
Context `{P : Platform}.

(** X10. A signing request on a disconnected provider authorizes first: when
    the handshake resolves with a valid address, the confirmation round-trip
    starts in the state [connect] leaves (address cached, accountsChanged and
    connect emitted) with that address as the expected signer; when the
    address does not validate, the request rejects with
    UnauthorizedProviderError and no round-trip starts. *)
Theorem signing_connects_when_disconnected (args : RequestArgs) (st : State)
    (win : Window) (authData : IdResponse) :
  Disconnected st ->
  window = Some win ->
  hs_settlement (idProvider st (round st)) = Resolves authData ->
  (forall a,
     as_truthy (validateIdAddress (resp_address authData)) = Some a ->
     (method args = "personal_sign" ->
        request args st =
          personalSign (action_args (this st) (params args) None a)
            (authorized win a st))
     /\ (method args = "eth_signTypedData_v4" ->
           request args st =
             signTypedDataV4
               (action_args (this st) (params args) (Some (chainId (this st))) a)
               (authorized win a st))
     /\ (method args = "eth_sendTransaction" ->
           request args st =
             sendTransaction
               (action_args (this st) (params args) (Some (chainId (this st))) a)
               (authorized win a st)))
  /\ (as_truthy (validateIdAddress (resp_address authData)) = None ->
      method args = "personal_sign" \/ method args = "eth_signTypedData_v4"
        \/ method args = "eth_sendTransaction" ->
      request args st =
        (Thrown (UnauthorizedProviderError "ID do NOT return valid address"),
         launched win st)).
Proof.
  intros Hd Hwin Hs. unfold Disconnected in Hd.
  assert (Hgo : forall a,
            as_truthy (validateIdAddress (resp_address authData)) = Some a ->
            getIdAddressOrConnect st = (Returned a, authorized win a st)).
  { intros a Hv. unfold getIdAddressOrConnect. rewrite Hd. unfold bind.
    rewrite (connect_cases st win Hwin), Hs, Hv. reflexivity. }
  assert (Hbad : as_truthy (validateIdAddress (resp_address authData)) = None ->
            getIdAddressOrConnect st =
              (Thrown (UnauthorizedProviderError "ID do NOT return valid address"),
               launched win st)).
  { intros Hv. unfold getIdAddressOrConnect. rewrite Hd. unfold bind.
    rewrite (connect_cases st win Hwin), Hs, Hv. reflexivity. }
  split.
  - intros a Hv. specialize (Hgo a Hv).
    split; [|split]; intros Hm; unfold request; rewrite Hm; simpl;
      unfold bind; rewrite Hgo; reflexivity.
  - intros Hv Hm. specialize (Hbad Hv).
    destruct Hm as [Hm | [Hm | Hm]]; unfold request; rewrite Hm; simpl;
      unfold bind; rewrite Hbad; reflexivity.
Qed.

Lemma connect_state_cases (st : State) :
  snd (connect st) = st
  \/ (exists win, snd (connect st) = launched win st)
  \/ (exists win raw a,
        validateIdAddress raw = Some a /\ a <> EmptyString
        /\ snd (connect st) = authorized win a st).
Proof.
  destruct (connect_outcome st)
    as [[_ H] | [(win & o & _ & _ & _ & H) | (win & authData & a & _ & _ & Hv & H)]];
    rewrite H; simpl.
  - auto.
  - right. left. eauto.
  - right. right. apply as_truthy_Some in Hv as [Hv Hne].
    exists win, (resp_address authData), a. auto.
Qed.

Lemma run_call_session (c : Call) (st : State) :
  session_call c = true ->
  run_call c st = st
  \/ run_call c st = snd (connect st)
  \/ run_call c st = snd (disconnect st).
Proof.
  destruct c as [| |args]; simpl; auto.
  unfold request.
  destruct (String.eqb (method args) "eth_chainId"); [auto|].
  destruct (String.eqb (method args) "eth_accounts"); [auto|].
  destruct (String.eqb (method args) "eth_requestAccounts"); [|discriminate].
  intros _. right. left. unfold bind.
  destruct (connect st) as [[r|e|] s]; reflexivity.
Qed.

(** Each step either leaves the state, launches a handshake, authorizes a
    validated address, or disconnects. *)
Lemma run_call_steps (c : Call) (st : State) :
  session_call c = true ->
  run_call c st = st
  \/ (exists win, run_call c st = launched win st)
  \/ (exists win raw a,
        validateIdAddress raw = Some a /\ a <> EmptyString
        /\ run_call c st = authorized win a st)
  \/ run_call c st = snd (disconnect st).
Proof.
  intros Hc. destruct (run_call_session c st Hc) as [-> | [-> | ->]]; auto.
  destruct (connect_state_cases st) as [-> | [H | H]]; auto.
Qed.

Lemma run_calls_invariant (Inv : State -> Prop) :
  (forall c st, session_call c = true -> Inv st -> Inv (run_call c st)) ->
  forall cs st,
    Forall (fun c => session_call c = true) cs -> Inv st -> Inv (run_calls cs st).
Proof.
  intros Hstep cs. induction cs as [|c cs IH]; intros st Hall Hinv; simpl.
  - exact Hinv.
  - inversion Hall as [|? ? Hc Hrest]; subst.
    apply IH; [exact Hrest|]. apply Hstep; assumption.
Qed.

(** X11. Through any sequence of connect, disconnect, eth_chainId,
    eth_accounts and eth_requestAccounts calls, whatever their outcomes, an
    address held in memory is non-empty, came out of the validator, and is
    the value stored under the address key, provided this held at the start
    (as it does for a new instance). *)
Theorem session_stays_coherent (cs : list Call) (st : State) :
  Forall (fun c => session_call c = true) cs ->
  coherent st ->
  coherent (run_calls cs st).
Proof.
  apply (run_calls_invariant coherent). clear cs st.
  intros c st Hc Hinv.
  destruct (run_call_steps c st Hc)
    as [-> | [[win ->] | [(win & raw & a & Hv & Hne & ->) | ->]]].
  - exact Hinv.
  - exact Hinv.
  - intros b [= <-]. split; [exact Hne|]. split; [apply lookup_insert_eq | eauto].
  - rewrite disconnect_state. intros b Hb. discriminate.
Qed.




(** X13. Such calls touch one storage entry only: whatever is stored under
    any key other than the address key is left as it was. *)
Theorem session_calls_touch_only_address_key (cs : list Call) (st : State)
    (key : string) :
  Forall (fun c => session_call c = true) cs ->
  key <> STORAGE_ADDRESS_KEY ->
  localStorage (run_calls cs st) !! key = localStorage st !! key.
Proof.
  intros Hall Hkey.
  apply (run_calls_invariant
           (fun s => localStorage s !! key = localStorage st !! key));
    [|exact Hall | reflexivity].
  intros c s Hc Hinv.
  destruct (run_call_steps c s Hc)
    as [-> | [[win ->] | [(win & raw & a & Hv & Hne & ->) | ->]]].
  - exact Hinv.
  - exact Hinv.
  - simpl. rewrite lookup_insert_ne by congruence. exact Hinv.
  - rewrite disconnect_state. simpl. rewrite lookup_delete_ne by congruence. exact Hinv.
Qed.

End CallSequences.

Section ScopesAndRedirect.
Context `{P : Platform}.

(** X14. [addDefaultScopes] is idempotent: a list that already went through
    it comes back unchanged. *)
Theorem addDefaultScopes_idempotent (given : list Scope) :
  addDefaultScopes (addDefaultScopes given) = addDefaultScopes given.
Proof.
  destruct (addDefaultScopes_elem given) as [Ho Hw].
  rewrite (addDefaultScopes_app (addDefaultScopes given)).
  rewrite (bool_decide_eq_true_2 _ Ho), (bool_decide_eq_true_2 _ Hw).
  rewrite !app_nil_r. reflexivity.
Qed.

(** X15. [addDefaultScopes] keeps every scope of the caller, adds at most
    two, adds nothing but "openid" and "wallet", and introduces no
    duplicate: a duplicate-free list stays duplicate-free. *)
Theorem addDefaultScopes_conservative (given : list Scope) :
  (forall s, s ∈ given -> s ∈ addDefaultScopes given)
  /\ (forall s, s ∈ addDefaultScopes given ->
        s ∈ given \/ s = "openid" \/ s = "wallet")
  /\ length given <= length (addDefaultScopes given) <= length given + 2
  /\ (NoDup given -> NoDup (addDefaultScopes given)).
Proof.
  rewrite addDefaultScopes_app.
  destruct (bool_decide_reflect ("openid" ∈ given)) as [Ho|Ho];
    destruct (bool_decide_reflect ("wallet" ∈ given)) as [Hw|Hw];
    simpl; rewrite ?app_nil_r.
  - repeat split; auto; lia.
  - repeat split.
    + intros s Hs. apply elem_of_app. auto.
    + intros s [Hs | Hs%list_elem_of_singleton]%elem_of_app; auto.
    + rewrite length_app. simpl. lia.
    + rewrite length_app. simpl. lia.
    + intros Hnd. apply NoDup_app. split; [exact Hnd|]. split.
      * intros s Hs Hin%list_elem_of_singleton. subst. contradiction.
      * apply NoDup_singleton.
  - repeat split.
    + intros s Hs. apply elem_of_app. auto.
    + intros s [Hs | Hs%list_elem_of_singleton]%elem_of_app; auto.
    + rewrite length_app. simpl. lia.
    + rewrite length_app. simpl. lia.
    + intros Hnd. apply NoDup_app. split; [exact Hnd|]. split.
      * intros s Hs Hin%list_elem_of_singleton. subst. contradiction.
      * apply NoDup_singleton.
  - repeat split.
    + intros s Hs. apply elem_of_app. auto.
    + intros s [Hs | Hs]%elem_of_app; auto.
      apply elem_of_cons in Hs as [-> | Hs%list_elem_of_singleton]; auto.
    + rewrite length_app. simpl. lia.
    + rewrite length_app. simpl. lia.
    + intros Hnd. apply NoDup_app. split; [exact Hnd|]. split.
      * intros s Hs Hin. apply elem_of_cons in Hin as [-> | Hin%list_elem_of_singleton];
          subst; contradiction.
      * apply NoDup_cons. split; [|apply NoDup_singleton].
        intros Hin%list_elem_of_singleton. discriminate.
Qed.

Lemma searchParams_get_app (q extra : list (string * string)) (name : string) :
  searchParams_get (q ++ extra) name =
    match searchParams_get q name with
    | Some v => Some v
    | None => searchParams_get extra name
    end.
Proof.
  induction q as [|[k v] q IH]; simpl; [reflexivity|].
  destruct (String.eqb k name); [reflexivity | exact IH].
Qed.

Lemma searchParams_get_None (q : list (string * string)) (name : string) :
  name ∉ q.*1 -> searchParams_get q name = None.
Proof.
  induction q as [|[k v] q IH]; simpl; [reflexivity|].
  intros Hnot. destruct (String.eqb_spec k name) as [->|Hne].
  - exfalso. apply Hnot. apply elem_of_cons. auto.
  - apply IH. intros Hin. apply Hnot. apply elem_of_cons. auto.
Qed.

(** X16. Only the first occurrence of a parameter counts: once the query
    defines method, type, state, data and address, parameters appended after
    them, duplicates included, do not change what [parseRedirectUrl] returns
    or throws. *)
Theorem parseRedirectUrl_first_occurrence (q extra : list (string * string)) :
  (forall name, name ∈ ["method"; "type"; "state"; "data"; "address"] ->
     is_Some (searchParams_get q name)) ->
  parseRedirectUrl (q ++ extra) = parseRedirectUrl q.
Proof.
  intros Hall.
  assert (Hget : forall name,
            name ∈ ["method"; "type"; "state"; "data"; "address"] ->
            searchParams_get (q ++ extra) name = searchParams_get q name).
  { intros name Hin. rewrite searchParams_get_app.
    destruct (Hall name Hin) as [v ->]. reflexivity. }
  unfold parseRedirectUrl.
  rewrite !Hget by (repeat (first [apply list_elem_of_here | apply list_elem_of_further])).
  reflexivity.
Qed.

(** X17. Missing parameters: a query without a method parameter is refused
    with "parseRedirectUrl: invalid method"; one with method "auth" and no
    type parameter with "parseRedirectUrl: authorization failed"; and in a
    query that is accepted, a missing state or data parameter gives a null
    state or token and a missing address gives what the validator makes of
    undefined, without any error. *)
Theorem parseRedirectUrl_missing_parameters (q : list (string * string)) :
  ("method" ∉ q.*1 -> parseRedirectUrl q = inl "parseRedirectUrl: invalid method")
  /\ (searchParams_get q "method" = Some "auth" -> "type" ∉ q.*1 ->
        parseRedirectUrl q = inl "parseRedirectUrl: authorization failed")
  /\ (searchParams_get q "method" = Some "auth" ->
      searchParams_get q "type" = Some "success" ->
      exists r, parseRedirectUrl q = inr r
        /\ ("state" ∉ q.*1 -> rr_state r = None)
        /\ ("data" ∉ q.*1 -> rr_accessToken r = None)
        /\ ("address" ∉ q.*1 -> rr_address r = validateIdAddress None)).
Proof.
  unfold parseRedirectUrl. split; [|split].
  - intros Hm. rewrite (searchParams_get_None q "method" Hm). reflexivity.
  - intros Hm Ht. rewrite Hm, (searchParams_get_None q "type" Ht). reflexivity.
  - intros Hm Ht. rewrite Hm, Ht. simpl. eexists. split; [reflexivity|]. simpl.
    split; [|split]; intros Hk; rewrite (searchParams_get_None q _ Hk); reflexivity.
Qed.

(** X18. [authorize] never touches the session: however the handshake ends,
    the instance and the storage are as they were and no event is emitted;
    with a window, its one effect is one popup at the authorize address of
    the chosen ID origin, and it uses one handshake round. *)
Theorem authorize_leaves_session (opts : AuthorizeOpts) (st : State) :
  this (snd (authorize opts st)) = this st
  /\ localStorage (snd (authorize opts st)) = localStorage st
  /\ emitted (trace (snd (authorize opts st))) = emitted (trace st)
  /\ (forall win, window = Some win ->
        trace (snd (authorize opts st)) =
          trace st ++
            [OpenPopup
               (authorize_url (default ID_ORIGIN_PROD (opt_idOrigin opts))
                  (opt_clientId opts))
               (authorize_query (hs_state (idProvider st (round st)))
                  (default (location_origin win) (opt_redirectUrl opts))
                  (location_origin win) (getScopesParams (opt_scopes opts)))]
        /\ round (snd (authorize opts st)) = S (round st)).
Proof.
  unfold authorize. destruct window as [win|] eqn:Hwin.
  - unfold bind, sendRequest, openPopup, ret.
    destruct (hs_settlement (idProvider st (round st))); simpl;
      (split; [reflexivity|]; split; [reflexivity|]; split;
       [unfold emitted; rewrite List.filter_app; simpl; apply app_nil_r
       | intros win' [= <-]; split; reflexivity]).
  - simpl. split; [reflexivity|]. split; [reflexivity|]. split; [reflexivity|].
    discriminate.
Qed.

(** X19. For an instance created from some options, [connect] opens the
    popup that [authorize] opens for the same options, same address, token,
    redirect and origin, except for the scope parameter: the provider sends
    the caller's scopes completed with "openid" and "wallet", [authorize]
    sends the caller's scopes as given. *)
Theorem provider_popup_matches_authorize (options : MavisIdWalletOpts)
    (w : MavisIdWallet) (st : State) (win : Window) :
  create options = inr w ->
  window = Some win ->
  this st = w ->
  let url := authorize_url (default ID_ORIGIN_PROD (opt_idOrigin (auth_opts options)))
               (opt_clientId (auth_opts options)) in
  let query := authorize_query (hs_state (idProvider st (round st)))
                 (default (location_origin win) (opt_redirectUrl (auth_opts options)))
                 (location_origin win) in
  (exists later,
     trace (snd (connect st)) =
       trace st ++
         OpenPopup url
           (query (getScopesParams
                     (Some (addDefaultScopes
                              (default [] (opt_scopes (auth_opts options))))))) :: later)
  /\ trace (snd (authorize (auth_opts options) st)) =
       trace st ++ [OpenPopup url (query (getScopesParams (opt_scopes (auth_opts options))))].
Proof.
  intros Hcreate Hwin Hthis url query. split.
  - assert (Hpopup : connect_popup win st =
              OpenPopup url
                (query (getScopesParams
                          (Some (addDefaultScopes
                                   (default [] (opt_scopes (auth_opts options)))))))).
    { unfold connect_popup. rewrite Hthis.
      unfold create in Hcreate. rewrite Hwin in Hcreate.
      destruct (createViemClient (opt_chainId options)); [discriminate|].
      injection Hcreate as <-. reflexivity. }
    rewrite <- Hpopup.
    destruct (connect_outcome st)
      as [[Hn _] | [(win' & o & Hw' & _ & _ & H) | (win' & authData & a & Hw' & _ & _ & H)]].
    + congruence.
    + rewrite H. assert (win' = win) by congruence. subst. exists []. reflexivity.
    + rewrite H. assert (win' = win) by congruence. subst. eexists. reflexivity.
  - unfold authorize. rewrite Hwin. unfold bind, sendRequest, openPopup, ret.
    destruct (hs_settlement (idProvider st (round st))); reflexivity.
Qed.

(** X20. The redirect variant asks for the same thing as the popup variant:
    for the same options and the same token, [redirectAuthorize] navigates to
    the address [authorize] opens its popup at, with the query of that popup
    minus its origin entry; the token is the caller's state when one is
    given and the fresh UUID otherwise. *)
Theorem redirect_matches_popup (opts : RedirectAuthorizeOpts) (randomUUID : string)
    (st : State) (win : Window) :
  window = Some win ->
  hs_state (idProvider st (round st)) = default randomUUID (ra_state opts) ->
  exists nav query,
    redirectAuthorize opts randomUUID = inr nav
    /\ trace (snd (authorize (ra_opts opts) st)) =
         trace st ++ [OpenPopup (nav_url nav) query]
    /\ nav_query nav =
         List.filter (fun kv => negb (String.eqb (fst kv) "origin")) query
    /\ searchParams_get (nav_query nav) "state" = Some (default randomUUID (ra_state opts))
    /\ searchParams_get (nav_query nav) "origin" = None.
Proof.
  intros Hwin Htok. unfold redirectAuthorize, authorize. rewrite Hwin.
  unfold bind, sendRequest, openPopup, ret. rewrite Htok.
  eexists. eexists. split; [reflexivity|]. split.
  - destruct (hs_settlement (idProvider st (round st))); reflexivity.
  - simpl. repeat split.
Qed.

End ScopesAndRedirect.

(** ** The further properties at concrete inputs *)

Lemma connect_returns_validated_witness :
  let st := sample_state None ∅ good_payload in
  let r := {| cr_accessToken := Some "jwt"; cr_address := bob |} in
  connect (P := sample_platform) st = (Returned r, snd (connect (P := sample_platform) st))
  /\ localStorage (snd (connect (P := sample_platform) st)) !! "MAVIS.ID:ADDRESS" = Some bob
  /\ getIdAddress (P := sample_platform) (snd (connect (P := sample_platform) st)) = Some bob.
Proof.
  intros st r. split; [reflexivity|].
  destruct (connect_returns_validated (P := sample_platform) st _ r eq_refl)
    as (authData & _ & _ & _ & _ & _ & Hstore & Hget).
  split; [exact Hstore | exact Hget].
Defined.


Lemma handshake_rejection_propagates_witness :
  let st := closing_state None ∅ in
  window (Platform := sample_platform) = Some sample_window
  /\ fst (connect (P := sample_platform) st) = Thrown popup_closed
  /\ fst (authorize (P := sample_platform) (auth_opts (sample_opts 2020 None)) st)
       = Thrown popup_closed
  /\ fst (request (P := sample_platform) (call "eth_requestAccounts") st)
       = Thrown popup_closed.
Proof.
  intros st. split; [reflexivity|].
  exact (proj1 (handshake_rejection_propagates (P := sample_platform) st sample_window
                  (auth_opts (sample_opts 2020 None)) (call "eth_requestAccounts")
                  eq_refl eq_refl) popup_closed eq_refl).
Defined.


Lemma connect_then_disconnect_witness :
  let st := sample_state None ∅ good_payload in
  let st2 := snd (disconnect (P := sample_platform)
                    (snd (connect (P := sample_platform) st))) in
  as_truthy (validateIdAddress (Platform := sample_platform)
               (resp_address good_payload)) = Some bob
  /\ localStorage st2 = ∅
  /\ emitted (trace st2) =
       [Emit Eip1193EventName.accountsChanged (Accounts [bob]);
        Emit Eip1193EventName.connect (ConnectInfo 2020);
        Emit Eip1193EventName.accountsChanged (Accounts []);
        Emit Eip1193EventName.disconnect
          (Failure (ProviderDisconnectedError
                      "The provider is disconnected from all chains."))].
Proof.
  intros st st2. split; [reflexivity|].
  destruct (connect_then_disconnect (P := sample_platform) st sample_window
              good_payload bob eq_refl eq_refl eq_refl)
    as (_ & _ & Hback & _ & Htrace).
  split; [exact (Hback eq_refl)|].
  fold st2 in Htrace. rewrite Htrace. reflexivity.
Defined.

Lemma session_survives_reload_witness :
  let st := sample_state None ∅ good_payload in
  exists w,
    create (P := sample_platform) (sample_opts 2021 None) = inr w
    /\ validateIdAddress (Platform := sample_platform) (Some bob) = Some bob
    /\ fst (request (P := sample_platform) (call "eth_accounts")
              (with_this w (snd (connect (P := sample_platform) st))))
       = Returned (VAccounts [bob]).
Proof.
  intros st. eexists. split; [reflexivity|]. split; [reflexivity|].
  rewrite (session_survives_reload (P := sample_platform) st sample_window good_payload
             bob (sample_opts 2021 None) _ (call "eth_accounts")
             eq_refl eq_refl eq_refl eq_refl eq_refl eq_refl).
  reflexivity.
Defined.

Lemma disconnect_across_instances_witness :
  let st := sample_state (Some alice) (stored_session alice) good_payload in
  let after := snd (disconnect (P := sample_platform) st) in
  getIdAddress (P := sample_platform) (with_this (sample_wallet (Some bob)) after) = Some bob
  /\ getIdAddress (P := sample_platform) (with_this (sample_wallet None) after) = None.
Proof.
  intros st after. split.
  - refine (proj1 (disconnect_across_instances (P := sample_platform) st
                     (sample_wallet (Some bob))) bob eq_refl _).
    discriminate.
  - subst after.
    rewrite (proj2 (disconnect_across_instances (P := sample_platform) st
                      (sample_wallet None)) eq_refl).
    reflexivity.
Defined.

Lemma getIdAddressOrConnect_returns_cached_witness :
  let st := sample_state None ∅ good_payload in
  getIdAddressOrConnect (P := sample_platform) st
    = (Returned bob, snd (getIdAddressOrConnect (P := sample_platform) st))
  /\ as_truthy (getIdAddress (P := sample_platform)
                  (snd (getIdAddressOrConnect (P := sample_platform) st))) = Some bob.
Proof.
  intros st. split; [reflexivity|].
  exact (proj1 (proj2 (getIdAddressOrConnect_returns_cached (P := sample_platform)
                         st _ bob eq_refl))).
Defined.

Lemma signing_connects_when_disconnected_witness :
  let st := sample_state None ∅ good_payload in
  Disconnected (P := sample_platform) st
  /\ request (P := sample_platform) (call "personal_sign") st
     = (Returned (VRemote ("personal_sign:" +:+ bob)),
        authorized (P := sample_platform) sample_window bob st).
Proof.
  intros st. split; [reflexivity|].
  destruct (signing_connects_when_disconnected (P := sample_platform)
              (call "personal_sign") st sample_window good_payload
              eq_refl eq_refl eq_refl) as (Hgood & _).
  destruct (Hgood bob eq_refl) as (Hsign & _).
  rewrite (Hsign eq_refl). reflexivity.
Defined.

Lemma sample_calls_session :
  Forall (fun c => session_call c = true) sample_calls.
Proof. repeat constructor. Defined.

Lemma session_stays_coherent_witness :
  coherent (P := sample_platform)
    (run_calls (P := sample_platform) sample_calls (sample_state None ∅ good_payload)).
Proof.
  apply (session_stays_coherent (P := sample_platform)); [exact sample_calls_session|].
  intros a Ha. discriminate.
Defined.


Lemma session_calls_touch_only_address_key_witness :
  let st := sample_state None (<["theme" := "dark"]> (stored_session alice)) good_payload in
  "theme" <> STORAGE_ADDRESS_KEY (Platform := sample_platform)
  /\ localStorage (run_calls (P := sample_platform) sample_calls st) !! "theme"
     = Some "dark".
Proof.
  intros st.
  assert (Hkey : "theme" <> STORAGE_ADDRESS_KEY (Platform := sample_platform))
    by discriminate.
  split; [exact Hkey|].
  rewrite (session_calls_touch_only_address_key (P := sample_platform) sample_calls st
             "theme" sample_calls_session Hkey).
  reflexivity.
Defined.

Lemma addDefaultScopes_conservative_witness :
  NoDup ["email"; "wallet"]
  /\ NoDup (addDefaultScopes ["email"; "wallet"])
  /\ addDefaultScopes ["email"; "wallet"] = ["email"; "wallet"; "openid"].
Proof.
  assert (Hnd : NoDup ["email"; "wallet"]).
  { apply NoDup_cons. split; [|apply NoDup_singleton].
    intros Hin%list_elem_of_singleton. discriminate. }
  split; [exact Hnd|].
  split; [|reflexivity].
  exact (proj2 (proj2 (proj2 (addDefaultScopes_conservative ["email"; "wallet"]))) Hnd).
Defined.

Lemma parseRedirectUrl_first_occurrence_witness :
  parseRedirectUrl (P := sample_platform)
      (returned_query ++ [("method", "other"); ("address", bob)])
    = inr {| rr_state := Some "s"; rr_accessToken := Some "jwt";
             rr_address := Some alice |}.
Proof.
  rewrite (parseRedirectUrl_first_occurrence (P := sample_platform) returned_query
             [("method", "other"); ("address", bob)]).
  - reflexivity.
  - intros name Hin.
    repeat (apply elem_of_cons in Hin as [-> | Hin]; [eexists; reflexivity|]).
    apply elem_of_nil in Hin. destruct Hin.
Defined.

Lemma parseRedirectUrl_missing_parameters_witness :
  parseRedirectUrl (P := sample_platform) [("type", "success")]
    = inl "parseRedirectUrl: invalid method"
  /\ exists r,
       parseRedirectUrl (P := sample_platform) [("method", "auth"); ("type", "success")]
         = inr r
       /\ rr_address r = None.
Proof.
  split.
  - apply (proj1 (parseRedirectUrl_missing_parameters (P := sample_platform)
                    [("type", "success")])).
    intros Hin%list_elem_of_singleton. discriminate.
  - destruct (proj2 (proj2 (parseRedirectUrl_missing_parameters (P := sample_platform)
                              [("method", "auth"); ("type", "success")]))
                eq_refl eq_refl) as (r & Hr & _ & _ & Haddr).
    exists r. split; [exact Hr|]. apply Haddr.
    intros Hin. repeat (apply elem_of_cons in Hin as [Hin | Hin]; [discriminate|]).
    apply elem_of_nil in Hin. destruct Hin.
Defined.

Lemma authorize_leaves_session_witness :
  let st := sample_state (Some alice) (stored_session alice) good_payload in
  let st' := snd (authorize (P := sample_platform) (auth_opts (sample_opts 2020 None)) st) in
  this st' = this st /\ localStorage st' = stored_session alice /\ round st' = 1.
Proof.
  intros st st'.
  destruct (authorize_leaves_session (P := sample_platform)
              (auth_opts (sample_opts 2020 None)) st) as (Hthis & Hstore & _ & Hwin).
  split; [exact Hthis|]. split; [exact Hstore|].
  exact (proj2 (Hwin sample_window eq_refl)).
Defined.

Lemma provider_popup_matches_authorize_witness :
  exists w,
    create (P := sample_platform) (sample_opts 2020 (Some ["email"])) = inr w
    /\ trace (snd (authorize (P := sample_platform)
                     (auth_opts (sample_opts 2020 (Some ["email"])))
                     (mkState w ∅ [] (answering good_payload) 0)))
       = [OpenPopup "https://id.skymavis.com/client/client-1/authorize"
            (authorize_query "token-0" "https://dapp.example" "https://dapp.example"
               "email")].
Proof.
  eexists. split; [reflexivity|].
  exact (proj2 (provider_popup_matches_authorize (P := sample_platform)
                  (sample_opts 2020 (Some ["email"])) _
                  (mkState _ ∅ [] (answering good_payload) 0) sample_window
                  eq_refl eq_refl eq_refl)).
Defined.

Lemma redirect_matches_popup_witness :
  let opts := {| ra_opts := auth_opts (sample_opts 2020 (Some ["email"]));
                 ra_state := Some "token-0" |} in
  redirectAuthorize (P := sample_platform) opts "uuid-1"
    = inr {| nav_url := "https://id.skymavis.com/client/client-1/authorize";
             nav_query := [("state", "token-0"); ("redirect", "https://dapp.example");
                           ("scope", "email")] |}.
Proof.
  intros opts.
  destruct (redirect_matches_popup (P := sample_platform) opts "uuid-1"
              (sample_state None ∅ good_payload) sample_window eq_refl eq_refl)
    as (nav & query & Hnav & _).
  rewrite Hnav. f_equal.
  assert (Hinv : inr (A := Error) nav = redirectAuthorize (P := sample_platform) opts "uuid-1")
    by (symmetry; exact Hnav).
  injection Hinv as ->. reflexivity.
Defined.
